(** * The outfit subsystem of naev (src/outfit.c), embedded in Rocq.

    The development follows the C file top to bottom: the damage model, the
    type predicates, the accessor layer, the type registry, the variant
    parsers, the catalog (outfit_stack) with [outfit_get], [outfit_getTech]
    and [outfit_load].

    Conventions of the embedding.
    - A C [double] is a binary64 primitive float; the arithmetic is the
      kernel's IEEE 754 arithmetic, and decimal constants are rounded to the
      nearest binary64 value as a C compiler does.
    - A C [int] or enum value is a [Z]; the code does no arithmetic on them
      besides the increment of the type counter in [outfit_getTech] and the
      bit set in [outfit_setProp].  Where the code converts a stored value
      to the [int] it returns ([outfit_delay]), the conversion wraps to 32
      bits ([to_int]).
    - A [char*] that may be NULL is an [option string]; [strcmp(a,b)==0] is
      string equality.
    - The payload union [u] records which member was written; reading another
      member is an undefined read ([Undefined]), as is [strcmp] on NULL.
    - Diagnostics (WARN, ERR, DEBUG) only print; they are modelled where a
      property speaks of them ([outfit_get], [outfit_calcDamage]) and are
      left out of the parsers, whose records they do not change. *)

From Stdlib Require Import ZArith String Ascii List Bool Floats Lia.
From Stdlib Require Import Sorting.Sorted Lists.Finite.
Import ListNotations.

Set Warnings "-inexact-float,-register-all".

Local Open Scope Z_scope.
Local Open Scope string_scope.

(** ** Results of code that may run into undefined behaviour *)

Inductive cres (A : Type) : Type :=
| Val (a : A)
| Undefined.

Arguments Val {A} a.
Arguments Undefined {A}.

Definition cbind {A B : Type} (m : cres A) (k : A -> cres B) : cres B :=
  match m with
  | Val a => k a
  | Undefined => Undefined
  end.

Definition cmap {A B : Type} (f : A -> B) (m : cres A) : cres B :=
  cbind m (fun a => Val (f a)).

Notation "x <- m ;; k" := (cbind m (fun x => k))
  (at level 61, m at next level, right associativity).
Notation "' pat <- m ;; k" := (cbind m (fun x => let 'pat := x in k))
  (at level 61, pat pattern, m at next level, right associativity).

(** Diagnostics written to the log. *)
Inductive log_event : Type :=
| W_outfit_not_found (name : string)
| W_unknown_damage_type (dtype : Z).

(** ** Enumerations of outfit.h *)

(** Modelled from the spec: the [DamageType] enumeration of outfit.h (the
    header is not among the sources).  The spec names a null code and the
    four damage types energy, kinetic, ion, radiation. *)
Definition DamageType := Z.
Definition DAMAGE_TYPE_NULL : DamageType := 0.
Definition DAMAGE_TYPE_ENERGY : DamageType := 1.
Definition DAMAGE_TYPE_KINETIC : DamageType := 2.
Definition DAMAGE_TYPE_ION : DamageType := 3.
Definition DAMAGE_TYPE_RADIATION : DamageType := 4.

(** Modelled from the spec: the [OutfitType] enumeration of outfit.h (the
    header is not among the sources), numbered in the order in which the spec
    lists the types, which is the order of the [outfit_typename] table that
    [outfit_getType] indexes with the type code. *)
Definition OutfitType := Z.
Definition OUTFIT_TYPE_NULL : OutfitType := 0.
Definition OUTFIT_TYPE_BOLT : OutfitType := 1.
Definition OUTFIT_TYPE_BEAM : OutfitType := 2.
Definition OUTFIT_TYPE_TURRET_BOLT : OutfitType := 3.
Definition OUTFIT_TYPE_TURRET_BEAM : OutfitType := 4.
Definition OUTFIT_TYPE_MISSILE_DUMB : OutfitType := 5.
Definition OUTFIT_TYPE_MISSILE_DUMB_AMMO : OutfitType := 6.
Definition OUTFIT_TYPE_MISSILE_SEEK : OutfitType := 7.
Definition OUTFIT_TYPE_MISSILE_SEEK_AMMO : OutfitType := 8.
Definition OUTFIT_TYPE_MISSILE_SEEK_SMART : OutfitType := 9.
Definition OUTFIT_TYPE_MISSILE_SEEK_SMART_AMMO : OutfitType := 10.
Definition OUTFIT_TYPE_MISSILE_SWARM : OutfitType := 11.
Definition OUTFIT_TYPE_MISSILE_SWARM_AMMO : OutfitType := 12.
Definition OUTFIT_TYPE_MISSILE_SWARM_SMART : OutfitType := 13.
Definition OUTFIT_TYPE_MISSILE_SWARM_SMART_AMMO : OutfitType := 14.
Definition OUTFIT_TYPE_MODIFCATION : OutfitType := 15.
Definition OUTFIT_TYPE_AFTERBURNER : OutfitType := 16.
Definition OUTFIT_TYPE_JAMMER : OutfitType := 17.
Definition OUTFIT_TYPE_MAP : OutfitType := 18.
Definition OUTFIT_TYPE_SENTINEL : OutfitType := 19.

(** Modelled from the spec: the property bit "is a secondary weapon slot" of
    outfit.h. *)
Definition OUTFIT_PROP_WEAP_SECONDARY : Z := 1.

(** ** The Outfit record of outfit.h *)

(** Handles of the graphics collaborator; a [glTexture*] is an
    [option glTexture], NULL being [None]. *)
Inductive glTexture : Type := GlTexture (id : Z).
Inductive glColour : Type := cWhite.

(** Modelled from the spec: the bolt payload of outfit.h (the header is not
    among the sources), with the fields that outfit.c reads and writes.  The
    delay is an unsigned integer, which [outfit_delay] converts to the
    [int] it returns; the double that [outfit_parseSBolt] reads for it is
    converted on the store. *)
Record OutfitBoltData : Type := mkBolt {
  blt_delay : Z;
  blt_speed : float;
  blt_range : float;
  blt_accuracy : float;
  blt_energy : float;
  blt_dtype : DamageType;
  blt_damage : float;
  blt_gfx_space : option glTexture;
  blt_sound : Z;
  blt_spfx : Z
}.

(** Modelled from the spec: the beam payload of outfit.h, with the fields
    that outfit.c reads and writes. *)
Record OutfitBeamData : Type := mkBeam {
  bem_delay : Z;
  bem_range : float;
  bem_turn : float;
  bem_energy : float;
  bem_dtype : DamageType;
  bem_damage : float;
  bem_colour : option glColour
}.

(** Modelled from the spec: the launcher payload of outfit.h: the firing
    delay and the name of the ammo outfit. *)
Record OutfitLauncherData : Type := mkLauncher {
  lau_delay : Z;
  lau_ammo : option string
}.

(** Modelled from the spec: the ammo payload of outfit.h, with the fields
    that outfit.c reads and writes. *)
Record OutfitAmmoData : Type := mkAmmo {
  amm_duration : float;
  amm_lockon : float;
  amm_resist : float;
  amm_thrust : float;
  amm_turn : float;
  amm_speed : float;
  amm_energy : float;
  amm_dtype : DamageType;
  amm_damage : float;
  amm_gfx_space : option glTexture;
  amm_sound : Z;
  amm_spfx : Z
}.

(** Modelled from the spec: the modification payload of outfit.h. *)
Record OutfitModificationData : Type := mkMod {
  mod_thrust : float;
  mod_turn : float;
  mod_speed : float;
  mod_armour : float;
  mod_shield : float;
  mod_energy : float;
  mod_fuel : float;
  mod_armour_regen : float;
  mod_shield_regen : float;
  mod_energy_regen : float;
  mod_cargo : Z
}.

(** Modelled from the spec: the afterburner payload of outfit.h. *)
Record OutfitAfterburnerData : Type := mkAfterburner {
  afb_rumble : float;
  afb_sound : Z;
  afb_thrust_perc : float;
  afb_thrust_abs : float;
  afb_speed_perc : float;
  afb_speed_abs : float;
  afb_energy : float
}.

(** Modelled from the spec: the map payload of outfit.h. *)
Record OutfitMapData : Type := mkMap {
  map_radius : Z
}.

(** Modelled from the spec: the jammer payload of outfit.h. *)
Record OutfitJammerData : Type := mkJammer {
  jam_range : float;
  jam_chance : float;
  jam_energy : float
}.

(** Modelled from the spec: the union [u] of outfit.h, one member per
    payload.  [U_zero] is the union as CALLOC_ONE leaves it (every member
    reads as zeroes); [U_mixed] is a union into which two different members
    were written, whose bytes depend on the layout. *)
Inductive OutfitUnion : Type :=
| U_zero
| U_blt (b : OutfitBoltData)
| U_bem (b : OutfitBeamData)
| U_lau (l : OutfitLauncherData)
| U_amm (a : OutfitAmmoData)
| U_mod (m : OutfitModificationData)
| U_afb (a : OutfitAfterburnerData)
| U_map (m : OutfitMapData)
| U_jam (j : OutfitJammerData)
| U_mixed.

(** Modelled from the spec: the [Outfit] structure of outfit.h, with the
    common attributes and the payload union. *)
Record Outfit : Type := mkOutfit {
  o_name : option string;
  o_max : Z;
  o_tech : Z;
  o_mass : Z;
  o_price : Z;
  o_description : option string;
  o_gfx_store : option glTexture;
  o_type : OutfitType;
  o_properties : Z;
  o_u : OutfitUnion
}.

Definition zero_blt : OutfitBoltData :=
  mkBolt 0 0%float 0%float 0%float 0%float 0 0%float None 0 0.
Definition zero_bem : OutfitBeamData :=
  mkBeam 0 0%float 0%float 0%float 0 0%float None.
Definition zero_lau : OutfitLauncherData := mkLauncher 0 None.
Definition zero_amm : OutfitAmmoData :=
  mkAmmo 0%float 0%float 0%float 0%float 0%float 0%float 0%float 0 0%float
         None 0 0.
Definition zero_mod : OutfitModificationData :=
  mkMod 0%float 0%float 0%float 0%float 0%float 0%float 0%float 0%float
        0%float 0%float 0.
Definition zero_afb : OutfitAfterburnerData :=
  mkAfterburner 0%float 0 0%float 0%float 0%float 0%float 0%float.
Definition zero_map : OutfitMapData := mkMap 0.
Definition zero_jam : OutfitJammerData := mkJammer 0%float 0%float 0%float.

(** Reading the members [o->u.blt], [o->u.bem], ... *)
Definition u_blt (un : OutfitUnion) : cres OutfitBoltData :=
  match un with U_zero => Val zero_blt | U_blt b => Val b | _ => Undefined end.
Definition u_bem (un : OutfitUnion) : cres OutfitBeamData :=
  match un with U_zero => Val zero_bem | U_bem b => Val b | _ => Undefined end.
Definition u_lau (un : OutfitUnion) : cres OutfitLauncherData :=
  match un with U_zero => Val zero_lau | U_lau l => Val l | _ => Undefined end.
Definition u_amm (un : OutfitUnion) : cres OutfitAmmoData :=
  match un with U_zero => Val zero_amm | U_amm a => Val a | _ => Undefined end.
Definition u_mod (un : OutfitUnion) : cres OutfitModificationData :=
  match un with U_zero => Val zero_mod | U_mod m => Val m | _ => Undefined end.
Definition u_afb (un : OutfitUnion) : cres OutfitAfterburnerData :=
  match un with U_zero => Val zero_afb | U_afb a => Val a | _ => Undefined end.
Definition u_map (un : OutfitUnion) : cres OutfitMapData :=
  match un with U_zero => Val zero_map | U_map m => Val m | _ => Undefined end.
Definition u_jam (un : OutfitUnion) : cres OutfitJammerData :=
  match un with U_zero => Val zero_jam | U_jam j => Val j | _ => Undefined end.

(** C's [==] on type codes. *)
Definition teq (a b : Z) : bool := Z.eqb a b.

(** The conversion of an integer value to a 32-bit [int]: the value is
    kept when it is an [int], and wraps around otherwise (an unsigned
    3000000000 becomes -1294967296). *)
Definition to_int (z : Z) : Z :=
  let w := z mod 4294967296 in
  if Z.ltb w 2147483648 then w else w - 4294967296.

(** ** The damage model *)

Definition outfit_calcDamage (dtype : DamageType) (dmg : float)
  : (float * float * float) * list log_event :=
  if teq dtype DAMAGE_TYPE_ENERGY then
    ((PrimFloat.mul dmg 1.1, PrimFloat.mul dmg 0.7, 0.1%float), [])
  else if teq dtype DAMAGE_TYPE_KINETIC then
    ((PrimFloat.mul dmg 0.8, PrimFloat.mul dmg 1.2, 1%float), [])
  else if teq dtype DAMAGE_TYPE_ION then
    ((dmg, dmg, 0.4%float), [])
  else if teq dtype DAMAGE_TYPE_RADIATION then
    ((0.15%float, dmg, 0.8%float), [])
  else
    ((0%float, 0%float, 0%float), [W_unknown_damage_type dtype]).

(** ** Type predicates *)

Definition outfit_isWeapon (o : Outfit) : bool :=
  teq (o_type o) OUTFIT_TYPE_BOLT || teq (o_type o) OUTFIT_TYPE_BEAM.

Definition outfit_isBolt (o : Outfit) : bool :=
  teq (o_type o) OUTFIT_TYPE_BOLT || teq (o_type o) OUTFIT_TYPE_TURRET_BOLT.

Definition outfit_isBeam (o : Outfit) : bool :=
  teq (o_type o) OUTFIT_TYPE_BEAM || teq (o_type o) OUTFIT_TYPE_TURRET_BEAM.

Definition outfit_isLauncher (o : Outfit) : bool :=
  teq (o_type o) OUTFIT_TYPE_MISSILE_DUMB ||
  teq (o_type o) OUTFIT_TYPE_MISSILE_SEEK ||
  teq (o_type o) OUTFIT_TYPE_MISSILE_SEEK_SMART ||
  teq (o_type o) OUTFIT_TYPE_MISSILE_SWARM ||
  teq (o_type o) OUTFIT_TYPE_MISSILE_SWARM_SMART.

Definition outfit_isAmmo (o : Outfit) : bool :=
  teq (o_type o) OUTFIT_TYPE_MISSILE_DUMB_AMMO ||
  teq (o_type o) OUTFIT_TYPE_MISSILE_SEEK_AMMO ||
  teq (o_type o) OUTFIT_TYPE_MISSILE_SEEK_SMART_AMMO ||
  teq (o_type o) OUTFIT_TYPE_MISSILE_SWARM_AMMO ||
  teq (o_type o) OUTFIT_TYPE_MISSILE_SWARM_SMART_AMMO.

Definition outfit_isSeeker (o : Outfit) : bool :=
  if teq (o_type o) OUTFIT_TYPE_MISSILE_SEEK_AMMO ||
     teq (o_type o) OUTFIT_TYPE_MISSILE_SEEK_SMART_AMMO ||
     teq (o_type o) OUTFIT_TYPE_MISSILE_SWARM_AMMO ||
     teq (o_type o) OUTFIT_TYPE_MISSILE_SWARM_SMART_AMMO
  then true else false.

Definition outfit_isTurret (o : Outfit) : bool :=
  teq (o_type o) OUTFIT_TYPE_TURRET_BOLT ||
  teq (o_type o) OUTFIT_TYPE_TURRET_BEAM.

Definition outfit_isMod (o : Outfit) : bool :=
  teq (o_type o) OUTFIT_TYPE_MODIFCATION.

Definition outfit_isAfterburner (o : Outfit) : bool :=
  teq (o_type o) OUTFIT_TYPE_AFTERBURNER.

Definition outfit_isJammer (o : Outfit) : bool :=
  teq (o_type o) OUTFIT_TYPE_JAMMER.

Definition outfit_isMap (o : Outfit) : bool :=
  teq (o_type o) OUTFIT_TYPE_MAP.

(** ** The accessor layer *)

Definition outfit_gfx (o : Outfit) : cres (option glTexture) :=
  if outfit_isBolt o then cmap blt_gfx_space (u_blt (o_u o))
  else if outfit_isAmmo o then cmap amm_gfx_space (u_amm (o_u o))
  else if outfit_isTurret o then cmap blt_gfx_space (u_blt (o_u o))
  else Val None.

Definition outfit_spfx (o : Outfit) : cres Z :=
  if outfit_isBolt o then cmap blt_spfx (u_blt (o_u o))
  else if outfit_isAmmo o then cmap amm_spfx (u_amm (o_u o))
  else if outfit_isTurret o then cmap blt_spfx (u_blt (o_u o))
  else Val (-1).

Definition outfit_damage (o : Outfit) : cres float :=
  if outfit_isBolt o then cmap blt_damage (u_blt (o_u o))
  else if outfit_isBeam o then cmap bem_damage (u_bem (o_u o))
  else if outfit_isAmmo o then cmap amm_damage (u_amm (o_u o))
  else if outfit_isTurret o then cmap blt_damage (u_blt (o_u o))
  else Val (-1)%float.

Definition outfit_damageType (o : Outfit) : cres DamageType :=
  if outfit_isBolt o then cmap blt_dtype (u_blt (o_u o))
  else if outfit_isBeam o then cmap bem_dtype (u_bem (o_u o))
  else if outfit_isAmmo o then cmap amm_dtype (u_amm (o_u o))
  else if outfit_isTurret o then cmap blt_dtype (u_blt (o_u o))
  else Val DAMAGE_TYPE_NULL.

(** [outfit_delay] returns an [int]: the stored delay is converted. *)
Definition outfit_delay (o : Outfit) : cres Z :=
  if outfit_isBolt o then cmap (fun b => to_int (blt_delay b)) (u_blt (o_u o))
  else if outfit_isBeam o then
    cmap (fun b => to_int (bem_delay b)) (u_bem (o_u o))
  else if outfit_isLauncher o then
    cmap (fun l => to_int (lau_delay l)) (u_lau (o_u o))
  else if outfit_isTurret o then
    cmap (fun b => to_int (blt_delay b)) (u_blt (o_u o))
  else Val (-1).

Definition outfit_energy (o : Outfit) : cres float :=
  if outfit_isBolt o then cmap blt_energy (u_blt (o_u o))
  else if outfit_isBeam o then cmap bem_energy (u_bem (o_u o))
  else if outfit_isAmmo o then cmap amm_energy (u_amm (o_u o))
  else if outfit_isTurret o then cmap blt_energy (u_blt (o_u o))
  else Val (-1)%float.

Definition outfit_range (o : Outfit) : cres float :=
  if outfit_isBolt o then cmap blt_range (u_blt (o_u o))
  else if outfit_isBeam o then cmap bem_range (u_bem (o_u o))
  else if outfit_isAmmo o then
    cmap (fun a => PrimFloat.mul (PrimFloat.mul 0.8 (amm_speed a))
                                 (amm_duration a))
         (u_amm (o_u o))
  else if outfit_isTurret o then cmap blt_range (u_blt (o_u o))
  else Val (-1)%float.

Definition outfit_speed (o : Outfit) : cres float :=
  if outfit_isBolt o then cmap blt_speed (u_blt (o_u o))
  else if outfit_isAmmo o then cmap amm_speed (u_amm (o_u o))
  else if outfit_isTurret o then cmap blt_speed (u_blt (o_u o))
  else Val (-1)%float.

(** ** The type registry *)

Definition outfit_typename : list string :=
  [ "NULL";
    "Bolt Cannon";
    "Beam Cannon";
    "Bolt Turret";
    "Beam Turret";
    "Dumb Missile";
    "Dumb Missile Ammunition";
    "Seeker Missile";
    "Seeker Missile Ammunition";
    "Smart Seeker Missile";
    "Smart Seeker Missile Ammunition";
    "Swarm Missile";
    "Swarm Missile Ammunition Pack";
    "Smart Swarm Missile";
    "Smart Swarm Missile Ammunition Pack";
    "Ship Modification";
    "Afterburner";
    "Jammer";
    "Map" ].

(** [outfit_typename[o->type]]: an index outside the table is an undefined
    read. *)
Definition outfit_getType (o : Outfit) : cres string :=
  if Z.ltb (o_type o) 0 then Undefined
  else match nth_error outfit_typename (Z.to_nat (o_type o)) with
       | Some s => Val s
       | None => Undefined
       end.

Definition outfit_typenamebroad : list string :=
  [ "NULL";
    "Bolt Weapon";
    "Beam Weapon";
    "Launcher";
    "Ammo";
    "Turret";
    "Modification";
    "Afterburner";
    "Jammer";
    "Map" ].

Definition outfit_getTypeBroad (o : Outfit) : string :=
  let i :=
    if outfit_isBolt o then 1%nat
    else if outfit_isBeam o then 2%nat
    else if outfit_isLauncher o then 3%nat
    else if outfit_isAmmo o then 4%nat
    else if outfit_isTurret o then 5%nat
    else if outfit_isMod o then 6%nat
    else if outfit_isAfterburner o then 7%nat
    else if outfit_isJammer o then 8%nat
    else if outfit_isMap o then 9%nat
    else 0%nat in
  nth i outfit_typenamebroad "".

Definition outfit_strToDamageType (buf : string) : DamageType :=
  if String.eqb buf "energy" then DAMAGE_TYPE_ENERGY
  else if String.eqb buf "kinetic" then DAMAGE_TYPE_KINETIC
  else if String.eqb buf "ion" then DAMAGE_TYPE_ION
  else if String.eqb buf "radiation" then DAMAGE_TYPE_RADIATION
  else DAMAGE_TYPE_NULL.

Definition outfit_strToOutfitType (buf : string) : OutfitType :=
  if String.eqb buf "bolt" then OUTFIT_TYPE_BOLT
  else if String.eqb buf "beam" then OUTFIT_TYPE_BEAM
  else if String.eqb buf "turret bolt" then OUTFIT_TYPE_TURRET_BOLT
  else if String.eqb buf "turret beam" then OUTFIT_TYPE_TURRET_BEAM
  else if String.eqb buf "missile dumb" then OUTFIT_TYPE_MISSILE_DUMB
  else if String.eqb buf "missile dumb ammo" then OUTFIT_TYPE_MISSILE_DUMB_AMMO
  else if String.eqb buf "missile seek" then OUTFIT_TYPE_MISSILE_SEEK
  else if String.eqb buf "missile seek ammo" then OUTFIT_TYPE_MISSILE_SEEK_AMMO
  else if String.eqb buf "missile smart" then OUTFIT_TYPE_MISSILE_SEEK_SMART
  else if String.eqb buf "missile smart ammo"
       then OUTFIT_TYPE_MISSILE_SEEK_SMART_AMMO
  else if String.eqb buf "missile swarm" then OUTFIT_TYPE_MISSILE_SWARM
  else if String.eqb buf "missile swarm ammo"
       then OUTFIT_TYPE_MISSILE_SWARM_AMMO
  else if String.eqb buf "missile swarm smart"
       then OUTFIT_TYPE_MISSILE_SWARM_SMART
  else if String.eqb buf "missile swarm smart ammo"
       then OUTFIT_TYPE_MISSILE_SWARM_SMART_AMMO
  else if String.eqb buf "modification" then OUTFIT_TYPE_MODIFCATION
  else if String.eqb buf "afterburner" then OUTFIT_TYPE_AFTERBURNER
  else if String.eqb buf "map" then OUTFIT_TYPE_MAP
  else if String.eqb buf "jammer" then OUTFIT_TYPE_JAMMER
  else OUTFIT_TYPE_NULL.

(** ** The catalog: outfit_stack and outfit_nstack

    The catalog is the list of the records of [outfit_stack];
    [outfit_nstack] is its length, and [&outfit_stack[i]] is the index [i]. *)

Definition outfit_stack_t := list Outfit.

(** The scan of [outfit_get] from index [i] on: [strcmp] reads the name of
    each entry, which is undefined on an entry whose name is NULL. *)
Fixpoint outfit_get_from (i : nat) (name : string) (stack : outfit_stack_t)
  : cres (option nat * list log_event) :=
  match stack with
  | [] => Val (None, [W_outfit_not_found name])
  | o :: rest =>
      match o_name o with
      | None => Undefined
      | Some s =>
          if String.eqb name s then Val (Some i, [])
          else outfit_get_from (S i) name rest
      end
  end.

Definition outfit_get (name : string) (stack : outfit_stack_t)
  : cres (option nat * list log_event) :=
  outfit_get_from 0 name stack.

(** *** outfit_getTech *)

(** First loop, one catalog entry: the pointers stored for [outfit_stack[i]].
    [t0] is [tech[0]]. *)
Definition getTech_entry (t0 : Z) (tech : list Z) (o : Outfit) : list Outfit :=
  if Z.leb (o_tech o) t0 then [o]
  else flat_map (fun t => if Z.eqb t (o_tech o) then [o] else []) tech.

Definition getTech_available (t0 : Z) (tech : list Z) (stack : outfit_stack_t)
  : list Outfit :=
  flat_map (getTech_entry t0 tech) stack.

(** The loop over [k]: is the name among [outfitnames[0..n)]? *)
Fixpoint name_listed (outfitnames : list string) (name : option string)
  : cres bool :=
  match outfitnames with
  | [] => Val false
  | s :: rest =>
      match name with
      | None => Undefined
      | Some x => if String.eqb s x then Val true else name_listed rest name
      end
  end.

(** The loop over [j].  [price] is the cheapest candidate found so far: the
    record [outfits[price]], or [None] while [price == -1]. *)
Fixpoint getTech_cheapest (outfitnames : list string) (type : OutfitType)
  (outfits : list Outfit) (price : option Outfit) : cres (option Outfit) :=
  match outfits with
  | [] => Val price
  | oj :: rest =>
      if negb (teq (o_type oj) type) then
        getTech_cheapest outfitnames type rest price
      else if match price with
              | None => true
              | Some p => Z.gtb (o_price p) (o_price oj)
              end
      then
        listed <- name_listed outfitnames (o_name oj) ;;
        getTech_cheapest outfitnames type rest
                         (if listed then price else Some oj)
      else getTech_cheapest outfitnames type rest price
  end.

(** The [while (type < OUTFIT_TYPE_SENTINEL)] loop; [None] when [fuel]
    iterations were not enough.  [strdup] of a NULL name is undefined. *)
Fixpoint getTech_sort (fuel : nat) (outfits : list Outfit)
  (outfitnames : list string) (type : OutfitType)
  : option (cres (list string)) :=
  match fuel with
  | O => None
  | S fuel' =>
      if Z.ltb type OUTFIT_TYPE_SENTINEL then
        match getTech_cheapest outfitnames type outfits None with
        | Undefined => Some Undefined
        | Val None => getTech_sort fuel' outfits outfitnames (type + 1)
        | Val (Some p) =>
            match o_name p with
            | None => Some Undefined
            | Some s => getTech_sort fuel' outfits (outfitnames ++ [s]) type
            end
        end
      else Some (Val outfitnames)
  end.

(** [tech] is the array of [techmax] technologies.  Reading [tech[0]] of an
    empty array is undefined, and so is storing more pointers than the
    [outfit_nstack] that [outfits] was allocated for. *)
Definition outfit_getTech (tech : list Z) (stack : outfit_stack_t)
  : option (cres (list string)) :=
  match tech with
  | [] => Some Undefined
  | t0 :: _ =>
      let outfits := getTech_available t0 tech stack in
      if Nat.ltb (length stack) (length outfits) then Some Undefined
      else getTech_sort (length outfits + 19) outfits []
                        (OUTFIT_TYPE_NULL + 1)
  end.

(** ** The document *)

(** Modelled from the spec: the document tree that the macros of xml.h walk
    (the header is not among the sources): a node has a kind, a tag name,
    attributes, children and a text. *)
Inductive xmlNode : Type :=
| XmlNode (x_type : Z) (x_name : string) (x_props : list (string * string))
          (x_children : list xmlNode) (x_content : string).

Definition x_type (n : xmlNode) : Z :=
  match n with XmlNode t _ _ _ _ => t end.
Definition x_name (n : xmlNode) : string :=
  match n with XmlNode _ s _ _ _ => s end.
Definition x_props (n : xmlNode) : list (string * string) :=
  match n with XmlNode _ _ p _ _ => p end.
Definition x_children (n : xmlNode) : list xmlNode :=
  match n with XmlNode _ _ _ c _ => c end.
Definition x_content (n : xmlNode) : string :=
  match n with XmlNode _ _ _ _ s => s end.

Record xmlDoc : Type := mkDoc { doc_children : list xmlNode }.

Definition XML_NODE_START : Z := 1.
Definition XML_NODE_TEXT : Z := 3.

(** Modelled from the spec: [xml_isNode] of xml.h holds of an element with
    the given tag. *)
Definition xml_isNode (n : xmlNode) (s : string) : bool :=
  Z.eqb (x_type n) XML_NODE_START && String.eqb (x_name n) s.

(** Modelled from the spec: [xml_get] of xml.h is the text of the first
    child of the node, here the empty string when there is none. *)
Definition xml_get (n : xmlNode) : string :=
  match x_children n with
  | c :: _ => x_content c
  | [] => EmptyString
  end.

Fixpoint xml_prop_lookup (props : list (string * string)) (s : string)
  : option string :=
  match props with
  | [] => None
  | (k, v) :: rest => if String.eqb k s then Some v else xml_prop_lookup rest s
  end.

(** Modelled from the spec: [xml_nodeProp] of xml.h is the value of an
    attribute, or NULL. *)
Definition xml_nodeProp (n : xmlNode) (s : string) : option string :=
  xml_prop_lookup (x_props n) s.

(** Modelled from the spec: the loop [do ... while (xml_nextNode(node))]
    of xml.h, started at the first child, visits the children in order; with
    a body that cannot fail, and with one that can. *)
Definition xml_walk {S : Type} (body : xmlNode -> S -> S)
  (children : list xmlNode) (s : S) : S :=
  fold_left (fun acc n => body n acc) children s.

Fixpoint xml_walkM {S : Type} (body : xmlNode -> S -> cres S)
  (children : list xmlNode) (s : S) : cres S :=
  match children with
  | [] => Val s
  | n :: rest => s' <- body n s ;; xml_walkM body rest s'
  end.

(** An element with a text, as the parser builds it, and a text node. *)
Definition xml_text (s : string) : xmlNode :=
  XmlNode XML_NODE_TEXT "text" [] [] s.
Definition xml_leaf (tag text : string) : xmlNode :=
  XmlNode XML_NODE_START tag [] [xml_text text] "".
Definition xml_elem (tag : string) (props : list (string * string))
  (children : list xmlNode) : xmlNode :=
  XmlNode XML_NODE_START tag props children "".

(** ** Collaborators

    The C library conversions and the graphics, sound and effect registries
    are outside the repository; the parsers are stated over any of them. *)
Class Collaborators : Type := {
  atoi : string -> Z;
  atof : string -> float;
  double_to_uint : float -> Z;
  gl_newSprite : string -> Z -> Z -> option glTexture;
  gl_newImage : string -> option glTexture;
  spfx_get : string -> Z;
  sound_get : string -> Z
}.

Definition OUTFIT_GFX : string := "gfx/outfit/".
Definition XML_OUTFIT_ID : string := "Outfits".
Definition XML_OUTFIT_TAG : string := "outfit".

(** ** The variant parsers *)

Section Parsers.

Context {libs : Collaborators}.

Definition xml_getInt (n : xmlNode) : Z := atoi (xml_get n).
Definition xml_getFloat (n : xmlNode) : float := atof (xml_get n).

(** The path built by [snprintf] for a space or store graphic. *)
Definition gfx_path (dir : string) (n : xmlNode) : string :=
  OUTFIT_GFX ++ dir ++ xml_get n ++ ".png".

(** [outfit_parseDamage]: the damage type, the damage and the return code.
    [outfit_strToDamageType] runs [strcmp] on the [type] attribute, which is
    undefined when the attribute is absent. *)
Definition outfit_parseDamage (node : xmlNode)
  : cres (DamageType * float * Z) :=
  if xml_isNode node "damage" then
    match xml_nodeProp node "type" with
    | None => Undefined
    | Some buf => Val (outfit_strToDamageType buf, xml_getFloat node, 0)
    end
  else Val (DAMAGE_TYPE_NULL, 0%float, 1).

(** Body of the loop of [outfit_parseSBolt]. *)
Definition outfit_parseSBolt_node (node : xmlNode) (b : OutfitBoltData)
  : cres OutfitBoltData :=
  let '(mkBolt delay speed range accuracy energy dtype damage gfx sound spfx)
    := b in
  if xml_isNode node "speed" then
    Val (mkBolt delay (xml_getFloat node) range accuracy energy dtype damage
                gfx sound spfx)
  else if xml_isNode node "delay" then
    Val (mkBolt (double_to_uint (xml_getFloat node)) speed range accuracy
                energy dtype damage gfx sound spfx)
  else if xml_isNode node "range" then
    Val (mkBolt delay speed (xml_getFloat node) accuracy energy dtype damage
                gfx sound spfx)
  else if xml_isNode node "accuracy" then
    Val (mkBolt delay speed range (xml_getFloat node) energy dtype damage
                gfx sound spfx)
  else if xml_isNode node "energy" then
    Val (mkBolt delay speed range accuracy (xml_getFloat node) dtype damage
                gfx sound spfx)
  else if xml_isNode node "gfx" then
    Val (mkBolt delay speed range accuracy energy dtype damage
                (gl_newSprite (gfx_path "space/" node) 6 6) sound spfx)
  else if xml_isNode node "spfx" then
    Val (mkBolt delay speed range accuracy energy dtype damage gfx sound
                (spfx_get (xml_get node)))
  else if xml_isNode node "sound" then
    Val (mkBolt delay speed range accuracy energy dtype damage gfx
                (sound_get (xml_get node)) spfx)
  else if xml_isNode node "damage" then
    '(dt, dmg, _) <- outfit_parseDamage node ;;
    Val (mkBolt delay speed range accuracy energy dt dmg gfx sound spfx)
  else Val b.

Definition set_blt_sound (v : Z) (b : OutfitBoltData) : OutfitBoltData :=
  let '(mkBolt delay speed range accuracy energy dtype damage gfx _ spfx)
    := b in
  mkBolt delay speed range accuracy energy dtype damage gfx v spfx.

Definition with_u (temp : Outfit) (un : OutfitUnion) : Outfit :=
  mkOutfit (o_name temp) (o_max temp) (o_tech temp) (o_mass temp)
           (o_price temp) (o_description temp) (o_gfx_store temp)
           (o_type temp) (o_properties temp) un.

(** Writing through a member of the union.  The parser runs on the member as
    the union holds it; when the union held another member, the parser runs
    on bytes that depend on the layout and the union is left mixed. *)
Definition store {D : Type} (read : OutfitUnion -> cres D) (zero : D)
  (inj : D -> OutfitUnion) (run : D -> cres D) (temp : Outfit)
  : cres Outfit :=
  match read (o_u temp) with
  | Val d => d' <- run d ;; Val (with_u temp (inj d'))
  | Undefined => _ <- run zero ;; Val (with_u temp U_mixed)
  end.

Definition outfit_parseSBolt (temp : Outfit) (parent : xmlNode)
  : cres Outfit :=
  store u_blt zero_blt U_blt
        (fun b => xml_walkM outfit_parseSBolt_node (x_children parent)
                            (set_blt_sound (-1) b))
        temp.

(** Body of the loop of [outfit_parseSBeam]. *)
Definition outfit_parseSBeam_node (node : xmlNode) (b : OutfitBeamData)
  : cres OutfitBeamData :=
  let '(mkBeam delay range turn energy dtype damage colour) := b in
  if xml_isNode node "range" then
    Val (mkBeam delay (xml_getFloat node) turn energy dtype damage colour)
  else if xml_isNode node "turn" then
    Val (mkBeam delay range (xml_getFloat node) energy dtype damage colour)
  else if xml_isNode node "energy" then
    Val (mkBeam delay range turn (xml_getFloat node) dtype damage colour)
  else if xml_isNode node "damage" then
    '(dt, dmg, _) <- outfit_parseDamage node ;;
    Val (mkBeam delay range turn energy dt dmg colour)
  else Val b.

Definition set_bem_colour (c : option glColour) (b : OutfitBeamData)
  : OutfitBeamData :=
  let '(mkBeam delay range turn energy dtype damage _) := b in
  mkBeam delay range turn energy dtype damage c.

Definition outfit_parseSBeam (temp : Outfit) (parent : xmlNode)
  : cres Outfit :=
  store u_bem zero_bem U_bem
        (fun b => b' <- xml_walkM outfit_parseSBeam_node (x_children parent) b ;;
                  Val (set_bem_colour (Some cWhite) b'))
        temp.

(** Body of the loop of [outfit_parseSLauncher]. *)
Definition outfit_parseSLauncher_node (node : xmlNode)
  (l : OutfitLauncherData) : OutfitLauncherData :=
  if xml_isNode node "delay" then mkLauncher (xml_getInt node) (lau_ammo l)
  else if xml_isNode node "ammo" then
    mkLauncher (lau_delay l) (Some (xml_get node))
  else l.

Definition outfit_parseSLauncher (temp : Outfit) (parent : xmlNode)
  : cres Outfit :=
  store u_lau zero_lau U_lau
        (fun l => Val (xml_walk outfit_parseSLauncher_node
                                (x_children parent) l))
        temp.

(** Body of the loop of [outfit_parseSAmmo]. *)
Definition outfit_parseSAmmo_node (node : xmlNode) (a : OutfitAmmoData)
  : cres OutfitAmmoData :=
  let '(mkAmmo duration lockon resist thrust turn speed energy dtype damage
               gfx sound spfx) := a in
  if xml_isNode node "duration" then
    Val (mkAmmo (xml_getFloat node) lockon resist thrust turn speed energy
                dtype damage gfx sound spfx)
  else if xml_isNode node "lockon" then
    Val (mkAmmo duration (xml_getFloat node) resist thrust turn speed energy
                dtype damage gfx sound spfx)
  else if xml_isNode node "resist" then
    Val (mkAmmo duration lockon (xml_getFloat node) thrust turn speed energy
                dtype damage gfx sound spfx)
  else if xml_isNode node "thrust" then
    Val (mkAmmo duration lockon resist (xml_getFloat node) turn speed energy
                dtype damage gfx sound spfx)
  else if xml_isNode node "turn" then
    Val (mkAmmo duration lockon resist thrust (xml_getFloat node) speed energy
                dtype damage gfx sound spfx)
  else if xml_isNode node "speed" then
    Val (mkAmmo duration lockon resist thrust turn (xml_getFloat node) energy
                dtype damage gfx sound spfx)
  else if xml_isNode node "energy" then
    Val (mkAmmo duration lockon resist thrust turn speed (xml_getFloat node)
                dtype damage gfx sound spfx)
  else if xml_isNode node "gfx" then
    Val (mkAmmo duration lockon resist thrust turn speed energy dtype damage
                (gl_newSprite (gfx_path "space/" node) 6 6) sound spfx)
  else if xml_isNode node "spfx" then
    Val (mkAmmo duration lockon resist thrust turn speed energy dtype damage
                gfx sound (spfx_get (xml_get node)))
  else if xml_isNode node "sound" then
    Val (mkAmmo duration lockon resist thrust turn speed energy dtype damage
                gfx (sound_get (xml_get node)) spfx)
  else if xml_isNode node "damage" then
    '(dt, dmg, _) <- outfit_parseDamage node ;;
    Val (mkAmmo duration lockon resist thrust turn speed energy dt dmg
                gfx sound spfx)
  else Val a.

(** Post-processing of [outfit_parseSAmmo]: [resist /= 100.] *)
Definition ammo_post (a : OutfitAmmoData) : OutfitAmmoData :=
  let '(mkAmmo duration lockon resist thrust turn speed energy dtype damage
               gfx sound spfx) := a in
  mkAmmo duration lockon (PrimFloat.div resist 100) thrust turn speed energy
         dtype damage gfx sound spfx.

Definition outfit_parseSAmmo (temp : Outfit) (parent : xmlNode)
  : cres Outfit :=
  store u_amm zero_amm U_amm
        (fun a => a' <- xml_walkM outfit_parseSAmmo_node (x_children parent) a ;;
                  Val (ammo_post a'))
        temp.

(** Body of the loop of [outfit_parseSMod]. *)
Definition outfit_parseSMod_node (node : xmlNode) (m : OutfitModificationData)
  : OutfitModificationData :=
  let '(mkMod thrust turn speed armour shield energy fuel armour_regen
              shield_regen energy_regen cargo) := m in
  if xml_isNode node "thrust" then
    mkMod (xml_getFloat node) turn speed armour shield energy fuel
          armour_regen shield_regen energy_regen cargo
  else if xml_isNode node "turn" then
    mkMod thrust (xml_getFloat node) speed armour shield energy fuel
          armour_regen shield_regen energy_regen cargo
  else if xml_isNode node "speed" then
    mkMod thrust turn (xml_getFloat node) armour shield energy fuel
          armour_regen shield_regen energy_regen cargo
  else if xml_isNode node "armour" then
    mkMod thrust turn speed (xml_getFloat node) shield energy fuel
          armour_regen shield_regen energy_regen cargo
  else if xml_isNode node "shield" then
    mkMod thrust turn speed armour (xml_getFloat node) energy fuel
          armour_regen shield_regen energy_regen cargo
  else if xml_isNode node "energy" then
    mkMod thrust turn speed armour shield (xml_getFloat node) fuel
          armour_regen shield_regen energy_regen cargo
  else if xml_isNode node "fuel" then
    mkMod thrust turn speed armour shield energy (xml_getFloat node)
          armour_regen shield_regen energy_regen cargo
  else
    let m1 :=
      if xml_isNode node "armour_regen" then
        mkMod thrust turn speed armour shield energy fuel
              (PrimFloat.div (xml_getFloat node) 60) shield_regen
              energy_regen cargo
      else if xml_isNode node "shield_regen" then
        mkMod thrust turn speed armour shield energy fuel armour_regen
              (PrimFloat.div (xml_getFloat node) 60) energy_regen cargo
      else if xml_isNode node "energy_regen" then
        mkMod thrust turn speed armour shield energy fuel armour_regen
              shield_regen (PrimFloat.div (xml_getFloat node) 60) cargo
      else m in
    if xml_isNode node "cargo" then
      let '(mkMod thrust1 turn1 speed1 armour1 shield1 energy1 fuel1
                  armour_regen1 shield_regen1 energy_regen1 _) := m1 in
      mkMod thrust1 turn1 speed1 armour1 shield1 energy1 fuel1 armour_regen1
            shield_regen1 energy_regen1 (xml_getInt node)
    else m1.

Definition outfit_parseSMod (temp : Outfit) (parent : xmlNode)
  : cres Outfit :=
  store u_mod zero_mod U_mod
        (fun m => Val (xml_walk outfit_parseSMod_node (x_children parent) m))
        temp.

(** Body of the loop of [outfit_parseSAfterburner]. *)
Definition outfit_parseSAfterburner_node (node : xmlNode)
  (a : OutfitAfterburnerData) : OutfitAfterburnerData :=
  if xml_isNode node "rumble" then
    mkAfterburner (xml_getFloat node) (afb_sound a) (afb_thrust_perc a)
                  (afb_thrust_abs a) (afb_speed_perc a) (afb_speed_abs a)
                  (afb_energy a)
  else
    let a1 :=
      if xml_isNode node "sound" then
        mkAfterburner (afb_rumble a) (sound_get (xml_get node))
                      (afb_thrust_perc a) (afb_thrust_abs a)
                      (afb_speed_perc a) (afb_speed_abs a) (afb_energy a)
      else a in
    let a2 :=
      if xml_isNode node "thrust_perc" then
        mkAfterburner (afb_rumble a1) (afb_sound a1)
                      (PrimFloat.add 1 (PrimFloat.div (xml_getFloat node) 100))
                      (afb_thrust_abs a1) (afb_speed_perc a1)
                      (afb_speed_abs a1) (afb_energy a1)
      else a1 in
    if xml_isNode node "thrust_abs" then
      mkAfterburner (afb_rumble a2) (afb_sound a2) (afb_thrust_perc a2)
                    (xml_getFloat node) (afb_speed_perc a2) (afb_speed_abs a2)
                    (afb_energy a2)
    else
      let a3 :=
        if xml_isNode node "speed_perc" then
          mkAfterburner (afb_rumble a2) (afb_sound a2) (afb_thrust_perc a2)
                        (afb_thrust_abs a2)
                        (PrimFloat.add 1
                           (PrimFloat.div (xml_getFloat node) 100))
                        (afb_speed_abs a2) (afb_energy a2)
        else a2 in
      if xml_isNode node "speed_abs" then
        mkAfterburner (afb_rumble a3) (afb_sound a3) (afb_thrust_perc a3)
                      (afb_thrust_abs a3) (afb_speed_perc a3)
                      (xml_getFloat node) (afb_energy a3)
      else if xml_isNode node "energy" then
        mkAfterburner (afb_rumble a3) (afb_sound a3) (afb_thrust_perc a3)
                      (afb_thrust_abs a3) (afb_speed_perc a3)
                      (afb_speed_abs a3) (xml_getFloat node)
      else a3.

(** The defaults [thrust_perc = 1.] and [speed_perc = 1.] *)
Definition afb_defaults (a : OutfitAfterburnerData) : OutfitAfterburnerData :=
  mkAfterburner (afb_rumble a) (afb_sound a) 1%float (afb_thrust_abs a)
                1%float (afb_speed_abs a) (afb_energy a).

Definition outfit_parseSAfterburner (temp : Outfit) (parent : xmlNode)
  : cres Outfit :=
  store u_afb zero_afb U_afb
        (fun a => Val (xml_walk outfit_parseSAfterburner_node
                                (x_children parent) (afb_defaults a)))
        temp.

(** Body of the loop of [outfit_parseSMap]. *)
Definition outfit_parseSMap_node (node : xmlNode) (m : OutfitMapData)
  : OutfitMapData :=
  if xml_isNode node "radius" then mkMap (xml_getInt node) else m.

Definition outfit_parseSMap (temp : Outfit) (parent : xmlNode)
  : cres Outfit :=
  store u_map zero_map U_map
        (fun m => Val (xml_walk outfit_parseSMap_node (x_children parent) m))
        temp.

(** Body of the loop of [outfit_parseSJammer]. *)
Definition outfit_parseSJammer_node (node : xmlNode) (j : OutfitJammerData)
  : OutfitJammerData :=
  if xml_isNode node "range" then
    mkJammer (xml_getFloat node) (jam_chance j) (jam_energy j)
  else if xml_isNode node "chance" then
    mkJammer (jam_range j) (xml_getFloat node) (jam_energy j)
  else if xml_isNode node "energy" then
    mkJammer (jam_range j) (jam_chance j) (xml_getFloat node)
  else j.

(** After the loop: [chance /= 100.] and [energy /= 60.] *)
Definition jammer_post (j : OutfitJammerData) : OutfitJammerData :=
  mkJammer (jam_range j) (PrimFloat.div (jam_chance j) 100)
           (PrimFloat.div (jam_energy j) 60).

Definition outfit_parseSJammer (temp : Outfit) (parent : xmlNode)
  : cres Outfit :=
  store u_jam zero_jam U_jam
        (fun j => Val (jammer_post
                         (xml_walk outfit_parseSJammer_node
                                   (x_children parent) j)))
        temp.

(** ** outfit_parse *)

(** The record that CALLOC_ONE returns, with its name set. *)
Definition outfit_calloc (name : option string) : Outfit :=
  mkOutfit name 0 0 0 0 None None OUTFIT_TYPE_NULL 0 U_zero.

(** Body of the loop over the children of "general". *)
Definition outfit_parse_general (cur : xmlNode) (temp : Outfit) : Outfit :=
  if xml_isNode cur "max" then
    mkOutfit (o_name temp) (xml_getInt cur) (o_tech temp) (o_mass temp)
             (o_price temp) (o_description temp) (o_gfx_store temp)
             (o_type temp) (o_properties temp) (o_u temp)
  else if xml_isNode cur "tech" then
    mkOutfit (o_name temp) (o_max temp) (xml_getInt cur) (o_mass temp)
             (o_price temp) (o_description temp) (o_gfx_store temp)
             (o_type temp) (o_properties temp) (o_u temp)
  else if xml_isNode cur "mass" then
    mkOutfit (o_name temp) (o_max temp) (o_tech temp) (xml_getInt cur)
             (o_price temp) (o_description temp) (o_gfx_store temp)
             (o_type temp) (o_properties temp) (o_u temp)
  else if xml_isNode cur "price" then
    mkOutfit (o_name temp) (o_max temp) (o_tech temp) (o_mass temp)
             (xml_getInt cur) (o_description temp) (o_gfx_store temp)
             (o_type temp) (o_properties temp) (o_u temp)
  else if xml_isNode cur "description" then
    mkOutfit (o_name temp) (o_max temp) (o_tech temp) (o_mass temp)
             (o_price temp) (Some (xml_get cur)) (o_gfx_store temp)
             (o_type temp) (o_properties temp) (o_u temp)
  else if xml_isNode cur "gfx_store" then
    mkOutfit (o_name temp) (o_max temp) (o_tech temp) (o_mass temp)
             (o_price temp) (o_description temp)
             (gl_newImage (gfx_path "store/" cur))
             (o_type temp) (o_properties temp) (o_u temp)
  else temp.

Definition with_type (temp : Outfit) (t : OutfitType) : Outfit :=
  mkOutfit (o_name temp) (o_max temp) (o_tech temp) (o_mass temp)
           (o_price temp) (o_description temp) (o_gfx_store temp)
           t (o_properties temp) (o_u temp).

(** [outfit_setProp(o,p)] *)
Definition outfit_setProp (temp : Outfit) (p : Z) : Outfit :=
  mkOutfit (o_name temp) (o_max temp) (o_tech temp) (o_mass temp)
           (o_price temp) (o_description temp) (o_gfx_store temp)
           (o_type temp) (Z.lor (o_properties temp) p) (o_u temp).

(** The "specific" section.  A missing [type] attribute is reported and then
    handed to [strcmp], which is undefined. *)
Definition outfit_parse_specific (node : xmlNode) (temp : Outfit)
  : cres Outfit :=
  match xml_nodeProp node "type" with
  | None => Undefined
  | Some prop =>
      let temp1 := with_type temp (outfit_strToOutfitType prop) in
      let temp2 :=
        match xml_nodeProp node "secondary" with
        | Some prop2 =>
            if negb (Z.eqb (atoi prop2) 0)
            then outfit_setProp temp1 OUTFIT_PROP_WEAP_SECONDARY
            else temp1
        | None => temp1
        end in
      if teq (o_type temp2) OUTFIT_TYPE_NULL then Val temp2
      else if outfit_isBolt temp2 then outfit_parseSBolt temp2 node
      else if outfit_isBeam temp2 then outfit_parseSBeam temp2 node
      else if outfit_isLauncher temp2 then outfit_parseSLauncher temp2 node
      else if outfit_isAmmo temp2 then outfit_parseSAmmo temp2 node
      else if outfit_isMod temp2 then outfit_parseSMod temp2 node
      else if outfit_isAfterburner temp2
           then outfit_parseSAfterburner temp2 node
      else if outfit_isMap temp2 then outfit_parseSMap temp2 node
      else if outfit_isJammer temp2 then outfit_parseSJammer temp2 node
      else Val temp2
  end.

(** Body of the loop over the children of an "outfit" element. *)
Definition outfit_parse_node (node : xmlNode) (temp : Outfit) : cres Outfit :=
  if xml_isNode node "general" then
    Val (xml_walk outfit_parse_general (x_children node) temp)
  else if xml_isNode node "specific" then outfit_parse_specific node temp
  else Val temp.

Definition outfit_parse (parent : xmlNode) : cres Outfit :=
  xml_walkM outfit_parse_node (x_children parent)
            (outfit_calloc (xml_nodeProp parent "name")).

(** ** outfit_load *)

(** Body of the loop over the children of the root: an "outfit" element is
    parsed and copied to the end of the stack. *)
Definition outfit_load_node (node : xmlNode) (stack : outfit_stack_t)
  : cres outfit_stack_t :=
  if xml_isNode node XML_OUTFIT_TAG then
    temp <- outfit_parse node ;; Val (stack ++ [temp])%list
  else Val stack.

(** [outfit_load] on the parsed document [doc] and the stack as it is when
    the function is called: the return value and the stack afterwards. *)
Definition outfit_load (doc : xmlDoc) (stack : outfit_stack_t)
  : cres (Z * outfit_stack_t) :=
  match doc_children doc with
  | [] => Val (-1, stack)
  | node :: _ =>
      if negb (xml_isNode node XML_OUTFIT_ID) then Val (-1, stack)
      else
        match x_children node with
        | [] => Val (-1, stack)
        | children =>
            stack' <- xml_walkM outfit_load_node children stack ;;
            Val (0, stack')
        end
  end.

End Parsers.

(** ** Vocabulary of the properties *)

(** The order of the listing of [outfit_getTech]: by type code, then by
    price. *)
Definition type_price_le (a b : Outfit) : Prop :=
  o_type a < o_type b \/ (o_type a = o_type b /\ o_price a <= o_price b).

(** An outfit of the catalog passes the technology filter of
    [outfit_getTech]. *)
Definition tech_available (tech : list Z) (o : Outfit) : Prop :=
  match tech with
  | [] => False
  | t0 :: _ => o_tech o <= t0 \/ In (o_tech o) tech
  end.

Definition named (o : Outfit) : Prop := o_name o <> None.

(** The name of an outfit is, or is not, among the names listed so far. *)
Definition listed (names : list string) (o : Outfit) : Prop :=
  exists s : string, o_name o = Some s /\ In s names.

Definition unlisted (names : list string) (o : Outfit) : Prop :=
  exists s : string, o_name o = Some s /\ ~ In s names.

(** The invariant of the sorting loop of [outfit_getTech]: [sel] are the
    records whose names were listed so far, in order, and [ty] is the type
    being listed. *)
Record sort_inv (outfits : list Outfit) (names : list string)
  (ty : OutfitType) (sel : list Outfit) : Prop := mkSortInv {
  inv_names : map o_name sel = map Some names;
  inv_in : Forall (fun o => In o outfits) sel;
  inv_types : Forall (fun o => 1 <= o_type o <= ty /\
                            o_type o < OUTFIT_TYPE_SENTINEL) sel;
  inv_sorted : StronglySorted type_price_le sel;
  inv_nodup : NoDup names;
  inv_min : forall s o, In s sel -> o_type s = ty -> In o outfits ->
                        o_type o = ty -> unlisted names o ->
                        o_price s <= o_price o;
  inv_done : forall o, In o outfits -> 1 <= o_type o < ty -> listed names o;
  inv_range : 1 <= ty <= OUTFIT_TYPE_SENTINEL
}.

(** What a result of the scan means, on any catalog. *)
Definition get_result_ok (name : string) (stack : outfit_stack_t)
  (base : nat) (r : option nat * list log_event) : Prop :=
  match r with
  | (Some i, log) =>
      log = [] /\
      exists (k : nat) (o : Outfit),
        i = (base + k)%nat /\
        nth_error stack k = Some o /\ o_name o = Some name /\
        forall (j : nat) (o' : Outfit),
          (j < k)%nat -> nth_error stack j = Some o' ->
          o_name o' <> Some name
  | (None, log) =>
      log = [W_outfit_not_found name] /\
      forall o : Outfit, In o stack -> o_name o <> Some name
  end.

(** A sequence of keys is grouped when no key comes back after another key
    was seen. *)
Fixpoint drop_key (k : string) (l : list string) : list string :=
  match l with
  | [] => []
  | x :: rest => if String.eqb x k then drop_key k rest else l
  end.

Fixpoint grouped (l : list string) : bool :=
  match l with
  | [] => true
  | k :: rest =>
      negb (existsb (String.eqb k) (drop_key k rest)) && grouped rest
  end.

(** The entry that [outfit_get] finds for a name, if any. *)
Definition outfit_lookup (stack : outfit_stack_t) (name : string)
  : option Outfit :=
  match outfit_get name stack with
  | Val (Some i, _) => nth_error stack i
  | _ => None
  end.

(** The broad types, and the prices, of the entries a listing names. *)
Definition listing_broad (stack : outfit_stack_t) (names : list string)
  : list string :=
  map (fun n => match outfit_lookup stack n with
                | Some o => outfit_getTypeBroad o
                | None => ""
                end) names.

Definition listing_price (stack : outfit_stack_t) (names : list string)
  : list Z :=
  map (fun n => match outfit_lookup stack n with
                | Some o => o_price o
                | None => 0
                end) names.

(** The root element of a document: its first element node. *)
Definition doc_root (doc : xmlDoc) : option xmlNode :=
  find (fun n => Z.eqb (x_type n) XML_NODE_START) (doc_children doc).

(** The value of a field in the document: the number in the last child
    element with that tag, zero when there is none. *)
Definition xml_fieldFloat {libs : Collaborators} (tag : string)
  (children : list xmlNode) : float :=
  fold_left (fun acc n => if xml_isNode n tag then xml_getFloat n else acc)
            children 0%float.

(** A type string that the registry does not resolve. *)
Definition unresolvable (s : string) : Prop :=
  outfit_strToOutfitType s = OUTFIT_TYPE_NULL.

(** The type of a "specific" section does not resolve. *)
Definition specific_unresolvable (c : xmlNode) : Prop :=
  xml_isNode c "specific" = true ->
  exists s, xml_nodeProp c "type" = Some s /\ unresolvable s.

(** The records that the "outfit" elements among [nodes] parse to. *)
Definition parsed_entries {libs : Collaborators} (nodes : list xmlNode)
  (outs : list Outfit) : Prop :=
  Forall2 (fun e o => outfit_parse e = Val o)
          (filter (fun n => xml_isNode n XML_OUTFIT_TAG) nodes) outs.

(** ** Sample data *)

(** A stand-in for the collaborators: decimal integers for [atoi] and [atof],
    truncation for the conversion to an integer, and registries that number
    a resource by the length of its name. *)
Definition digit_of (c : Ascii.ascii) : option Z :=
  let n := Z.of_nat (Ascii.nat_of_ascii c) in
  if Z.leb 48 n && Z.leb n 57 then Some (n - 48) else None.

Fixpoint digits_value (s : string) (acc : Z) : Z :=
  match s with
  | EmptyString => acc
  | String c rest =>
      match digit_of c with
      | Some d => digits_value rest (10 * acc + d)
      | None => acc
      end
  end.

Definition sample_atoi (s : string) : Z :=
  match s with
  | String "-"%char rest => - digits_value rest 0
  | _ => digits_value s 0
  end.

Definition sample_atof (s : string) : float :=
  match sample_atoi s with
  | Z.neg p => PrimFloat.opp (PrimFloat.of_uint63 (Uint63.of_Z (Z.pos p)))
  | z => PrimFloat.of_uint63 (Uint63.of_Z z)
  end.

Definition sample_double_to_uint (f : float) : Z :=
  match Prim2SF f with
  | SpecFloat.S754_finite false m e => Z.shiftl (Z.pos m) e
  | _ => 0
  end.

#[local] Instance sample_libs : Collaborators := {|
  atoi := sample_atoi;
  atof := sample_atof;
  double_to_uint := sample_double_to_uint;
  gl_newSprite := fun path _ _ =>
    Some (GlTexture (Z.of_nat (String.length path)));
  gl_newImage := fun path => Some (GlTexture (Z.of_nat (String.length path)));
  spfx_get := fun name => Z.of_nat (String.length name);
  sound_get := fun name => Z.of_nat (String.length name)
|}.

Definition sample_outfit (name : string) (type : OutfitType) (tech price : Z)
  : Outfit :=
  mkOutfit (Some name) 1 tech 1 price (Some "") None type 0 U_zero.

(** Three weapons of one technology level. *)
Definition sample_weapons : outfit_stack_t :=
  [ sample_outfit "Laser Cannon" OUTFIT_TYPE_BOLT 1 500;
    sample_outfit "Ion Beam" OUTFIT_TYPE_BEAM 1 300;
    sample_outfit "Laser Turret" OUTFIT_TYPE_TURRET_BOLT 1 100 ].

Definition sample_general (tech price : string) : xmlNode :=
  xml_elem "general" []
    [ xml_leaf "max" "2"; xml_leaf "tech" tech; xml_leaf "mass" "5";
      xml_leaf "price" price; xml_leaf "description" "An outfit.";
      xml_leaf "gfx_store" "item" ].

(** A jammer entry with chance 40 (percent) and energy 12 (per minute). *)
Definition sample_jammer_specific : xmlNode :=
  xml_elem "specific" [("type", "jammer")]
    [ xml_leaf "range" "300"; xml_leaf "chance" "40";
      xml_leaf "energy" "12" ].

Definition sample_jammer : xmlNode :=
  xml_elem "outfit" [("name", "Jammer Mk1")]
    [ sample_general "3" "1500"; sample_jammer_specific ].

(** A turret beam entry. *)
Definition sample_turret_beam : xmlNode :=
  xml_elem "outfit" [("name", "Ripper Turret")]
    [ sample_general "4" "9000";
      xml_elem "specific" [("type", "turret beam")]
        [ xml_leaf "range" "600"; xml_leaf "turn" "20";
          xml_leaf "energy" "8";
          XmlNode XML_NODE_START "damage" [("type", "energy")]
                  [xml_text "15"] "" ] ].

(** A fixed beam entry. *)
Definition sample_beam : xmlNode :=
  xml_elem "outfit" [("name", "Ripper Beam")]
    [ sample_general "4" "7000";
      xml_elem "specific" [("type", "beam")]
        [ xml_leaf "range" "600"; xml_leaf "turn" "20";
          xml_leaf "energy" "8";
          XmlNode XML_NODE_START "damage" [("type", "energy")]
                  [xml_text "15"] "" ] ].

(** An entry whose type string is not in the registry. *)
Definition sample_malformed : xmlNode :=
  xml_elem "outfit" [("name", "Mystery Box")]
    [ sample_general "1" "10";
      xml_elem "specific" [("type", "cloaking device")]
        [ xml_leaf "range" "5" ] ].

Definition sample_document : xmlDoc :=
  mkDoc [ xml_elem "Outfits" []
            [ sample_jammer; xml_text " "; sample_malformed; sample_beam ] ].

(** An entry without a name attribute, and a document that holds it between
    two named entries. *)
Definition sample_nameless : xmlNode :=
  xml_elem "outfit" []
    [ sample_general "2" "800";
      xml_elem "specific" [("type", "map")] [ xml_leaf "radius" "3" ] ].

Definition sample_nameless_document : xmlDoc :=
  mkDoc [ xml_elem "Outfits" []
            [ sample_jammer; sample_nameless; sample_beam ] ].

(** Documents with a wrong and with an empty root. *)
Definition sample_wrong_root : xmlDoc :=
  mkDoc [ xml_elem "Ships" [] [ sample_jammer ] ].
Definition sample_empty_root : xmlDoc :=
  mkDoc [ xml_elem "Outfits" [] [] ].

(** A seeker ammunition record. *)
Definition sample_ammo : Outfit :=
  mkOutfit (Some "Seeker Missile") 20 2 1 50 (Some "") None
           OUTFIT_TYPE_MISSILE_SEEK_AMMO 0
           (U_amm (mkAmmo 5%float 1%float 0.1%float 400%float 90%float
                          350%float 0%float DAMAGE_TYPE_KINETIC 20%float
                          None 0 0)).

(** The bolt entry "Laser Cannon" of the specification. *)
Definition sample_laser : xmlNode :=
  xml_elem "outfit" [("name", "Laser Cannon")]
    [ sample_general "1" "500";
      xml_elem "specific" [("type", "bolt"); ("secondary", "0")]
        [ xml_leaf "delay" "500"; xml_leaf "speed" "800";
          xml_leaf "range" "1400"; xml_leaf "accuracy" "10";
          xml_leaf "energy" "2"; xml_leaf "gfx" "laser";
          XmlNode XML_NODE_START "damage" [("type", "kinetic")]
                  [xml_text "12"] "" ] ].

(** The records that the sample entries parse to. *)
Definition parsed_or_blank (r : cres Outfit) : Outfit :=
  match r with
  | Val o => o
  | Undefined => outfit_calloc None
  end.

Definition sample_jammer_outfit : Outfit :=
  Eval vm_compute in parsed_or_blank (outfit_parse sample_jammer).
Definition sample_beam_outfit : Outfit :=
  Eval vm_compute in parsed_or_blank (outfit_parse sample_beam).

(** ** outfit_free *)

(** What [outfit_free] hands back: a texture to [gl_freeTexture], a string
    or the stack itself to [free]. *)
Inductive free_event : Type :=
| FreeTexture (t : glTexture)
| FreeString (s : string)
| FreeStack.

(** Body of the loop of [outfit_free].  [free] of a NULL name does
    nothing. *)
Definition outfit_free_entry (o : Outfit) : cres (list free_event) :=
  g <- outfit_gfx o ;;
  e_gfx <- match g with
           | Some _ =>
               g' <- outfit_gfx o ;;
               Val (match g' with
                    | Some t => [FreeTexture t]
                    | None => []
                    end)
           | None => Val []
           end ;;
  e_ammo <- (if outfit_isLauncher o then
               l <- u_lau (o_u o) ;;
               Val (match lau_ammo l with
                    | Some a => [FreeString a]
                    | None => []
                    end)
             else Val []) ;;
  Val (e_gfx ++ e_ammo
       ++ match o_description o with
          | Some d => [FreeString d]
          | None => []
          end
       ++ match o_gfx_store o with
          | Some t => [FreeTexture t]
          | None => []
          end
       ++ match o_name o with
          | Some n => [FreeString n]
          | None => []
          end)%list.

Fixpoint outfit_free_entries (stack : outfit_stack_t)
  : cres (list free_event) :=
  match stack with
  | [] => Val []
  | o :: rest =>
      es <- outfit_free_entry o ;;
      es' <- outfit_free_entries rest ;;
      Val (es ++ es')%list
  end.

Definition outfit_free (stack : outfit_stack_t) : cres (list free_event) :=
  es <- outfit_free_entries stack ;; Val (es ++ [FreeStack])%list.

(** ** Vocabulary of the further properties *)

(** The predicates that [outfit_parse] dispatches on and that
    [outfit_getTypeBroad] names. *)
Definition variant_predicates (o : Outfit) : list bool :=
  [ outfit_isBolt o; outfit_isBeam o; outfit_isLauncher o; outfit_isAmmo o;
    outfit_isMod o; outfit_isAfterburner o; outfit_isMap o;
    outfit_isJammer o ].

Definition count_true (l : list bool) : nat :=
  length (filter (fun b => b) l).

(** The strings that [outfit_strToDamageType] knows. *)
Definition damage_type_names : list string :=
  [ "energy"; "kinetic"; "ion"; "radiation" ].

(** The union holds the member that the type of the outfit selects, as the
    variant parsers leave it. *)
Definition payload_fits (o : Outfit) : Prop :=
  if teq (o_type o) OUTFIT_TYPE_NULL then o_u o = U_zero
  else if outfit_isBolt o then exists b, o_u o = U_blt b
  else if outfit_isBeam o then exists b, o_u o = U_bem b
  else if outfit_isLauncher o then exists l, o_u o = U_lau l
  else if outfit_isAmmo o then exists a, o_u o = U_amm a
  else if outfit_isMod o then exists m, o_u o = U_mod m
  else if outfit_isAfterburner o then exists a, o_u o = U_afb a
  else if outfit_isMap o then exists m, o_u o = U_map m
  else if outfit_isJammer o then exists j, o_u o = U_jam j
  else o_u o = U_zero.

(** A "specific" section that asks for the secondary weapon slot. *)
Definition asks_secondary {libs : Collaborators} (c : xmlNode) : bool :=
  xml_isNode c "specific" &&
  match xml_nodeProp c "secondary" with
  | Some prop => negb (Z.eqb (atoi prop) 0)
  | None => false
  end.

(** The "outfit" elements of a root element, and the name of an element. *)
Definition outfit_elements (root : xmlNode) : list xmlNode :=
  filter (fun n => xml_isNode n XML_OUTFIT_TAG) (x_children root).

Definition element_name (e : xmlNode) : option string :=
  xml_nodeProp e "name".

(** The type strings of the document format, at the index of their type
    code; the null type has none. *)
Definition outfit_typestring : list string :=
  [ "";
    "bolt";
    "beam";
    "turret bolt";
    "turret beam";
    "missile dumb";
    "missile dumb ammo";
    "missile seek";
    "missile seek ammo";
    "missile smart";
    "missile smart ammo";
    "missile swarm";
    "missile swarm ammo";
    "missile swarm smart";
    "missile swarm smart ammo";
    "modification";
    "afterburner";
    "jammer";
    "map" ].

(** The attributes that the "general" section fills. *)
Definition outfit_general (o : Outfit)
  : Z * Z * Z * Z * option string * option glTexture :=
  (o_max o, o_tech o, o_mass o, o_price o, o_description o, o_gfx_store o).

(** The last child element with a given tag, if any: the one whose value a
    parser keeps. *)
Definition xml_lastNode (tag : string) (children : list xmlNode)
  : option xmlNode :=
  fold_left (fun acc n => if xml_isNode n tag then Some n else acc)
            children None.

(** More sample data. *)
Definition sample_afterburner_specific : xmlNode :=
  xml_elem "specific" [("type", "afterburner")]
    [ xml_leaf "rumble" "3"; xml_leaf "thrust_perc" "50";
      xml_leaf "energy" "30" ].

Definition sample_ammo_specific : xmlNode :=
  xml_elem "specific" [("type", "missile seek ammo")]
    [ xml_leaf "duration" "5"; xml_leaf "lockon" "1";
      xml_leaf "resist" "25"; xml_leaf "thrust" "400";
      xml_leaf "turn" "90"; xml_leaf "speed" "350";
      XmlNode XML_NODE_START "damage" [("type", "kinetic")]
              [xml_text "20"] "" ].

Definition sample_mod_specific : xmlNode :=
  xml_elem "specific" [("type", "modification")]
    [ xml_leaf "shield" "50"; xml_leaf "shield_regen" "120";
      xml_leaf "cargo" "10" ].

Definition sample_beam_specific : xmlNode :=
  xml_elem "specific" [("type", "beam")]
    [ xml_leaf "delay" "700"; xml_leaf "range" "600";
      xml_leaf "energy" "8" ].

Definition sample_bolt_specific : xmlNode :=
  xml_elem "specific" [("type", "bolt"); ("secondary", "1")]
    [ xml_leaf "delay" "500"; xml_leaf "speed" "800" ].

Definition sample_secondary : xmlNode :=
  xml_elem "outfit" [("name", "Rear Gun")]
    [ sample_general "1" "500"; sample_bolt_specific ].

Definition sample_ammo_parsed : Outfit :=
  Eval vm_compute in
    parsed_or_blank
      (outfit_parseSAmmo
         (with_type (outfit_calloc (Some "Seeker Missile"))
                    OUTFIT_TYPE_MISSILE_SEEK_AMMO)
         sample_ammo_specific).

Definition sample_beam_parsed : Outfit :=
  Eval vm_compute in
    parsed_or_blank
      (outfit_parseSBeam
         (with_type (outfit_calloc (Some "Ripper Beam")) OUTFIT_TYPE_BEAM)
         sample_beam_specific).

Definition sample_bolt_parsed : Outfit :=
  Eval vm_compute in
    parsed_or_blank
      (outfit_parseSBolt
         (with_type (outfit_calloc (Some "Rear Gun")) OUTFIT_TYPE_BOLT)
         sample_bolt_specific).

Definition sample_stack : outfit_stack_t :=
  Eval vm_compute in
    match outfit_load sample_document [] with
    | Val (_, st) => st
    | Undefined => []
    end.

Definition sample_turret_beam_outfit : Outfit :=
  Eval vm_compute in parsed_or_blank (outfit_parse sample_turret_beam).

(** * Properties *)

(** ** Tactics and basic facts *)

Lemma teq_true (a b : Z) : teq a b = true <-> a = b.
Proof. unfold teq. apply Z.eqb_eq. Qed.

Lemma teq_false (a b : Z) : teq a b = false <-> a <> b.
Proof. unfold teq. apply Z.eqb_neq. Qed.

(** Splits on the type tests that a goal still contains, one at a time. *)
Ltac split_teq :=
  repeat match goal with
         | |- context [teq ?a ?b] => destruct (teq a b) eqn:?; simpl
         end.

Ltac unfold_preds :=
  unfold outfit_isBolt, outfit_isBeam, outfit_isLauncher, outfit_isAmmo,
    outfit_isTurret, outfit_isMod, outfit_isAfterburner, outfit_isJammer,
    outfit_isMap in *.

(** ** The damage model *)

(** C3.  For each of the four damage types [outfit_calcDamage] returns the
    coefficients of the table: energy shield dmg*1.1, armour dmg*0.7,
    knockback 0.1; kinetic dmg*0.8, dmg*1.2, 1.0; ion dmg, dmg, 0.4;
    radiation shield 0.15 whatever dmg is, armour dmg, knockback 0.8.  For
    any other type code the three outputs are 0, and the code is reported. *)
Theorem outfit_calcDamage_table (dmg : float) :
  outfit_calcDamage DAMAGE_TYPE_ENERGY dmg
    = ((PrimFloat.mul dmg 1.1, PrimFloat.mul dmg 0.7, 0.1%float), []) /\
  outfit_calcDamage DAMAGE_TYPE_KINETIC dmg
    = ((PrimFloat.mul dmg 0.8, PrimFloat.mul dmg 1.2, 1%float), []) /\
  outfit_calcDamage DAMAGE_TYPE_ION dmg = ((dmg, dmg, 0.4%float), []) /\
  outfit_calcDamage DAMAGE_TYPE_RADIATION dmg
    = ((0.15%float, dmg, 0.8%float), []) /\
  (forall dtype : DamageType,
      dtype <> DAMAGE_TYPE_ENERGY -> dtype <> DAMAGE_TYPE_KINETIC ->
      dtype <> DAMAGE_TYPE_ION -> dtype <> DAMAGE_TYPE_RADIATION ->
      outfit_calcDamage dtype dmg
        = ((0%float, 0%float, 0%float), [W_unknown_damage_type dtype])).
Proof.
  repeat split; try reflexivity.
  intros dtype He Hk Hi Hr. unfold outfit_calcDamage.
  apply teq_false in He, Hk, Hi, Hr.
  rewrite He, Hk, Hi, Hr. reflexivity.
Qed.

Lemma outfit_calcDamage_table_witness :
  outfit_calcDamage 7 12%float
    = ((0%float, 0%float, 0%float), [W_unknown_damage_type 7]) /\
  outfit_calcDamage DAMAGE_TYPE_NULL 12%float
    = ((0%float, 0%float, 0%float), [W_unknown_damage_type 0]).
Proof.
  split.
  - apply (proj2 (proj2 (proj2 (proj2 (outfit_calcDamage_table 12%float)))) 7);
      discriminate.
  - apply (proj2 (proj2 (proj2 (proj2 (outfit_calcDamage_table 12%float))))
             DAMAGE_TYPE_NULL); discriminate.
Defined.

(** ** The broad type *)

(** C10.  A turret bolt has the broad type "Bolt Weapon", a turret beam
    "Beam Weapon", and "Turret" is the broad type of no outfit: the bolt and
    beam predicates include the turret types and are tested first. *)
Theorem outfit_getTypeBroad_never_turret (o : Outfit) :
  (o_type o = OUTFIT_TYPE_TURRET_BOLT ->
   outfit_getTypeBroad o = "Bolt Weapon") /\
  (o_type o = OUTFIT_TYPE_TURRET_BEAM ->
   outfit_getTypeBroad o = "Beam Weapon") /\
  outfit_getTypeBroad o <> "Turret".
Proof.
  unfold outfit_getTypeBroad. unfold_preds. repeat split.
  - intros ->. reflexivity.
  - intros ->. reflexivity.
  - split_teq; discriminate.
Qed.

Lemma outfit_getTypeBroad_never_turret_witness :
  outfit_getTypeBroad (sample_outfit "Laser Turret" OUTFIT_TYPE_TURRET_BOLT 1 100)
    = "Bolt Weapon" /\
  outfit_getTypeBroad (sample_outfit "Ripper Turret" OUTFIT_TYPE_TURRET_BEAM 4 9000)
    = "Beam Weapon".
Proof.
  split.
  - apply (proj1 (outfit_getTypeBroad_never_turret
                    (sample_outfit "Laser Turret" OUTFIT_TYPE_TURRET_BOLT 1 100))).
    reflexivity.
  - apply (proj1 (proj2 (outfit_getTypeBroad_never_turret
                    (sample_outfit "Ripper Turret" OUTFIT_TYPE_TURRET_BEAM 4 9000)))).
    reflexivity.
Defined.

(** ** The accessor layer *)

Lemma ammo_not_bolt_beam (o : Outfit) :
  outfit_isAmmo o = true ->
  outfit_isBolt o = false /\ outfit_isBeam o = false.
Proof.
  unfold_preds. intros H.
  repeat (apply orb_true_iff in H; destruct H as [H | H]);
    apply teq_true in H; rewrite H; split; reflexivity.
Qed.

(** C1.  For an outfit of an ammo type, [outfit_range] is 0.8 times the stored
    speed times the stored duration of the ammo payload (the product is taken
    in that order), the speed being what [outfit_speed] returns; no range
    field is read. *)
Theorem outfit_range_ammo (o : Outfit) (a : OutfitAmmoData) :
  outfit_isAmmo o = true ->
  u_amm (o_u o) = Val a ->
  outfit_range o
    = Val (PrimFloat.mul (PrimFloat.mul 0.8 (amm_speed a)) (amm_duration a)) /\
  outfit_speed o = Val (amm_speed a).
Proof.
  intros Hammo Hu.
  destruct (ammo_not_bolt_beam o Hammo) as [Hb Hm].
  unfold outfit_range, outfit_speed.
  rewrite Hb, Hm, Hammo, Hu. split; reflexivity.
Qed.

Lemma outfit_range_ammo_witness :
  outfit_range sample_ammo = Val 1400%float /\
  outfit_speed sample_ammo = Val 350%float.
Proof.
  exact (outfit_range_ammo sample_ammo
           (mkAmmo 5%float 1%float 0.1%float 400%float 90%float
                   350%float 0%float DAMAGE_TYPE_KINETIC 20%float None 0 0)
           eq_refl eq_refl).
Defined.

(** On a turret beam the graphic, particle effect and speed accessors fall
    through to the turret branch and read the bolt member. *)
Lemma turret_beam_reads_bolt (o : Outfit) :
  o_type o = OUTFIT_TYPE_TURRET_BEAM ->
  outfit_gfx o = cmap blt_gfx_space (u_blt (o_u o)) /\
  outfit_spfx o = cmap blt_spfx (u_blt (o_u o)) /\
  outfit_speed o = cmap blt_speed (u_blt (o_u o)).
Proof.
  intros H. unfold outfit_gfx, outfit_spfx, outfit_speed. unfold_preds.
  rewrite H. repeat split; reflexivity.
Qed.

(** Apart from the turret beam, an accessor reads a member only of an outfit
    whose type selects that member, and returns its sentinel otherwise. *)
Lemma accessor_sentinels (o : Outfit) :
  o_type o <> OUTFIT_TYPE_TURRET_BEAM ->
  outfit_isBolt o = false -> outfit_isAmmo o = false ->
  outfit_gfx o = Val None /\ outfit_spfx o = Val (-1) /\
  outfit_speed o = Val (-1)%float /\
  (outfit_isBeam o = false ->
   outfit_damage o = Val (-1)%float /\
   outfit_damageType o = Val DAMAGE_TYPE_NULL /\
   outfit_energy o = Val (-1)%float /\
   outfit_range o = Val (-1)%float /\
   (outfit_isLauncher o = false -> outfit_delay o = Val (-1))).
Proof.
  intros Hn Hb Ha.
  assert (Ht : outfit_isTurret o = false).
  { unfold_preds. apply orb_false_iff in Hb. destruct Hb as [_ Hb].
    rewrite Hb. simpl. apply teq_false. exact Hn. }
  unfold outfit_gfx, outfit_spfx, outfit_speed, outfit_damage,
    outfit_damageType, outfit_energy, outfit_range, outfit_delay.
  rewrite Hb, Ha, Ht.
  split; [reflexivity | split; [reflexivity | split; [reflexivity |]]].
  intros Hm. rewrite Hm. repeat split.
  intros Hl. rewrite Hl. reflexivity.
Qed.

(** C8, at a turret beam as [outfit_parse] builds it: the union holds the
    beam member, and [outfit_gfx], [outfit_spfx] and [outfit_speed] read the
    bolt member instead of returning NULL, -1 and -1; on the fixed beam
    parsed from the same fields they return the sentinels. *)
Theorem accessors_turret_beam :
  exists (o : Outfit) (b : OutfitBeamData),
    outfit_parse sample_turret_beam = Val o /\
    o_type o = OUTFIT_TYPE_TURRET_BEAM /\ o_u o = U_bem b /\
    outfit_gfx o = Undefined /\ outfit_spfx o = Undefined /\
    outfit_speed o = Undefined /\
    exists o' : Outfit,
      outfit_parse sample_beam = Val o' /\
      o_type o' = OUTFIT_TYPE_BEAM /\ o_u o' = U_bem b /\
      outfit_gfx o' = Val None /\ outfit_spfx o' = Val (-1) /\
      outfit_speed o' = Val (-1)%float.
Proof.
  eexists. eexists. split; [vm_compute; reflexivity |].
  repeat split; try reflexivity.
  eexists. split; [vm_compute; reflexivity |].
  repeat split; reflexivity.
Qed.

(** The example of the specification: the parsed "Laser Cannon" is a fixed
    bolt weapon with damage 12 of the kinetic type, range 1400 and delay
    500. *)
Example laser_cannon_accessors :
  exists o : Outfit,
    outfit_parse sample_laser = Val o /\
    outfit_isWeapon o = true /\ outfit_isBolt o = true /\
    outfit_damage o = Val 12%float /\
    outfit_damageType o = Val DAMAGE_TYPE_KINETIC /\
    outfit_range o = Val 1400%float /\
    outfit_delay o = Val 500 /\
    outfit_getTypeBroad o = "Bolt Weapon".
Proof.
  eexists. split; [vm_compute; reflexivity |].
  repeat split; reflexivity.
Qed.

(** ** The type registry *)

Lemma valid_type_cases (t : Z) :
  0 <= t < OUTFIT_TYPE_SENTINEL ->
  In t [0; 1; 2; 3; 4; 5; 6; 7; 8; 9; 10; 11; 12; 13; 14; 15; 16; 17; 18].
Proof. unfold OUTFIT_TYPE_SENTINEL. simpl. lia. Qed.

(** C4, as the code has it.  For every valid type code, the display name
    that [outfit_getType] returns is not one of the strings of the registry:
    [outfit_strToOutfitType] maps it to the null type, so the broad category
    after the round trip is that of the null type, and it is the broad
    category of the type one started from only when that type is null. *)
Theorem display_name_not_in_registry (o : Outfit) :
  0 <= o_type o < OUTFIT_TYPE_SENTINEL ->
  exists s : string,
    outfit_getType o = Val s /\
    outfit_strToOutfitType s = OUTFIT_TYPE_NULL /\
    outfit_getTypeBroad (with_type o (outfit_strToOutfitType s)) = "NULL" /\
    (outfit_getTypeBroad (with_type o (outfit_strToOutfitType s))
       = outfit_getTypeBroad o <-> o_type o = OUTFIT_TYPE_NULL).
Proof.
  intros H. apply valid_type_cases in H.
  destruct o as [nm mx tc ms pr ds gs ty pp un]. simpl in H.
  unfold outfit_getType, outfit_getTypeBroad, with_type. unfold_preds.
  simpl o_type.
  repeat (destruct H as [H | H];
          [subst ty; eexists; split; [reflexivity |];
           repeat split; try reflexivity; try discriminate |]).
  destruct H.
Qed.

Lemma display_name_not_in_registry_witness :
  exists s : string,
    outfit_getType (sample_outfit "Laser Cannon" OUTFIT_TYPE_BOLT 1 500)
      = Val s /\
    outfit_strToOutfitType s = OUTFIT_TYPE_NULL /\
    outfit_getTypeBroad
      (with_type (sample_outfit "Laser Cannon" OUTFIT_TYPE_BOLT 1 500)
                 (outfit_strToOutfitType s)) = "NULL" /\
    (outfit_getTypeBroad
       (with_type (sample_outfit "Laser Cannon" OUTFIT_TYPE_BOLT 1 500)
                  (outfit_strToOutfitType s))
       = outfit_getTypeBroad (sample_outfit "Laser Cannon" OUTFIT_TYPE_BOLT 1 500)
     <-> o_type (sample_outfit "Laser Cannon" OUTFIT_TYPE_BOLT 1 500)
         = OUTFIT_TYPE_NULL).
Proof.
  apply (display_name_not_in_registry
           (sample_outfit "Laser Cannon" OUTFIT_TYPE_BOLT 1 500)).
  cbv. split; [intros H; discriminate H | reflexivity].
Defined.

(** C4 as stated fails: the display name of a bolt cannon goes back to the
    null type, whose broad category is not "Bolt Weapon". *)
Lemma roundtrip_broad_counterexample :
  ~ (forall (o : Outfit) (s : string),
        0 <= o_type o < OUTFIT_TYPE_SENTINEL ->
        outfit_getType o = Val s ->
        outfit_getTypeBroad (with_type o (outfit_strToOutfitType s))
          = outfit_getTypeBroad o).
Proof.
  intros H.
  specialize (H (sample_outfit "Laser Cannon" OUTFIT_TYPE_BOLT 1 500)
                "Bolt Cannon").
  assert (Hr : 0 <= 1 < 19) by lia.
  specialize (H Hr eq_refl). vm_compute in H. discriminate H.
Qed.

(** ** outfit_get *)

Lemma outfit_get_from_sound (name : string) (stack : outfit_stack_t) :
  forall (i0 : nat) (r : option nat * list log_event),
    outfit_get_from i0 name stack = Val r ->
    get_result_ok name stack i0 r.
Proof.
  induction stack as [| o rest IH]; intros i0 r H; simpl in H.
  - injection H as <-. simpl. split; [reflexivity | intros o []].
  - destruct (o_name o) as [s |] eqn:Hs; [| discriminate H].
    destruct (String.eqb name s) eqn:He.
    + apply String.eqb_eq in He. subst s. injection H as <-. simpl.
      split; [reflexivity |]. exists 0%nat, o.
      repeat split; auto. intros j o' Hj. lia.
    + apply String.eqb_neq in He. specialize (IH (S i0) r H).
      destruct r as [[i |] log]; simpl in *.
      * destruct IH as (Hlog & k & o1 & Hi & Hn & Hm & Hfirst).
        split; [exact Hlog |]. exists (S k), o1.
        repeat split; auto; [lia |].
        intros j o' Hj Hnth. destruct j as [| j]; simpl in Hnth.
        -- injection Hnth as <-. rewrite Hs. congruence.
        -- apply (Hfirst j o'); [lia | exact Hnth].
      * destruct IH as (Hlog & Hno). split; [exact Hlog |].
        intros o' [<- | Hin]; [rewrite Hs; congruence | auto].
Qed.

Lemma outfit_get_from_defined (name : string) (stack : outfit_stack_t) :
  Forall named stack ->
  forall i0 : nat, exists r, outfit_get_from i0 name stack = Val r.
Proof.
  induction 1 as [| o rest Ho Hrest IH]; intros i0; simpl.
  - eauto.
  - destruct (o_name o) as [s |] eqn:Hs; [| elim Ho; exact Hs].
    destruct (String.eqb name s); [eauto | apply IH].
Qed.

(** What holds of [outfit_get] on every catalog: an index that it returns
    is that of the first entry, in insertion order, whose name is the
    queried one, and the not-found value (NULL) comes with the warning and
    only when no entry has that name.  On a catalog whose entries all have a
    name the scan always ends in one of the two. *)
Theorem outfit_get_first_match (name : string) (stack : outfit_stack_t) :
  (forall r, outfit_get name stack = Val r ->
             get_result_ok name stack 0 r) /\
  (Forall named stack ->
   exists r, outfit_get name stack = Val r /\ get_result_ok name stack 0 r).
Proof.
  split.
  - intros r H. exact (outfit_get_from_sound name stack 0%nat r H).
  - intros Hn.
    destruct (outfit_get_from_defined name stack Hn 0%nat) as (r & Hr).
    exists r. split; [exact Hr |].
    exact (outfit_get_from_sound name stack 0%nat r Hr).
Qed.

Lemma sample_weapons_named : Forall named sample_weapons.
Proof. repeat constructor; discriminate. Defined.

Lemma outfit_get_first_match_witness :
  Forall named sample_weapons /\
  (exists r, outfit_get "Ion Beam" sample_weapons = Val r /\
             get_result_ok "Ion Beam" sample_weapons 0 r) /\
  get_result_ok "Ion Beam" sample_weapons 0 (Some 1%nat, []) /\
  get_result_ok "Plasma Gun" sample_weapons 0
                (None, [W_outfit_not_found "Plasma Gun"]).
Proof.
  split; [exact sample_weapons_named |].
  split; [| split].
  - exact (proj2 (outfit_get_first_match "Ion Beam" sample_weapons)
                 sample_weapons_named).
  - exact (proj1 (outfit_get_first_match "Ion Beam" sample_weapons)
                 (Some 1%nat, []) eq_refl).
  - exact (proj1 (outfit_get_first_match "Plasma Gun" sample_weapons)
                 (None, [W_outfit_not_found "Plasma Gun"]) eq_refl).
Defined.

(** The scan stops at an entry without a name: [strcmp] is handed its NULL
    name before any later entry is looked at. *)
Lemma outfit_get_from_nameless (name : string) (pre rest : list Outfit)
  (o : Outfit) :
  o_name o = None ->
  (forall p, In p pre -> exists s, o_name p = Some s /\ s <> name) ->
  forall i0 : nat,
    outfit_get_from i0 name (pre ++ o :: rest)%list = Undefined.
Proof.
  intros Ho. induction pre as [| p pre IH]; intros Hpre i0; simpl.
  - rewrite Ho. reflexivity.
  - destruct (Hpre p (or_introl eq_refl)) as (s & Hs & Hne). rewrite Hs.
    destruct (String.eqb name s) eqn:He.
    + apply String.eqb_eq in He. congruence.
    + apply IH. intros q Hq. apply Hpre. right. exact Hq.
Qed.

(** C7, at a catalog as [outfit_load] builds it from a document with an
    "outfit" element that has no name attribute between two named ones: the
    load succeeds and keeps the entry with a NULL name, and [outfit_get]
    then returns the entry before it, but on the name of the entry after it
    and on a name that no entry has the scan hands the NULL name to [strcmp]:
    it neither returns the matching entry nor reports the absence. *)
Theorem outfit_get_nameless_entry :
  exists (stack : outfit_stack_t) (o1 o2 : Outfit),
    outfit_load sample_nameless_document [] = Val (0, stack) /\
    nth_error stack 1 = Some o1 /\ o_name o1 = None /\
    nth_error stack 2 = Some o2 /\ o_name o2 = Some "Ripper Beam" /\
    outfit_get "Jammer Mk1" stack = Val (Some 0%nat, []) /\
    outfit_get "Ripper Beam" stack = Undefined /\
    outfit_get "Plasma Gun" stack = Undefined.
Proof.
  eexists. eexists. eexists.
  split; [vm_compute; reflexivity |].
  split; [reflexivity |]. split; [reflexivity |].
  split; [reflexivity |]. split; [reflexivity |].
  split; [reflexivity |]. split.
  - apply (outfit_get_from_nameless "Ripper Beam" [sample_jammer_outfit]).
    + reflexivity.
    + intros p [<- | []]. exists "Jammer Mk1". split; [reflexivity |].
      discriminate.
  - apply (outfit_get_from_nameless "Plasma Gun" [sample_jammer_outfit]).
    + reflexivity.
    + intros p [<- | []]. exists "Jammer Mk1". split; [reflexivity |].
      discriminate.
Qed.

(** ** outfit_load on a malformed document *)

Lemma first_node_is_root (doc : xmlDoc) (node : xmlNode)
  (rest : list xmlNode) (s : string) :
  doc_children doc = node :: rest ->
  xml_isNode node s = true ->
  doc_root doc = Some node /\ x_name node = s.
Proof.
  intros Hd Hn. unfold xml_isNode in Hn. apply andb_true_iff in Hn.
  destruct Hn as [Ht Hs]. apply String.eqb_eq in Hs.
  unfold doc_root. rewrite Hd. simpl. rewrite Ht. auto.
Qed.

(** C6.  When the root element of the document is not "Outfits" (or there
    is none), and when the root element has no children, [outfit_load]
    returns -1 and leaves the stack as it was; on the stack still empty,
    [outfit_get] on any name gives the not-found value. *)
Theorem outfit_load_bad_document {libs : Collaborators} (doc : xmlDoc) :
  (forall root : xmlNode,
      doc_root doc = Some root ->
      x_name root <> XML_OUTFIT_ID \/ x_children root = []) ->
  (forall stack : outfit_stack_t, outfit_load doc stack = Val (-1, stack)) /\
  (forall name : string,
      exists stack' : outfit_stack_t,
        outfit_load doc [] = Val (-1, stack') /\ stack' = [] /\
        outfit_get name stack' = Val (None, [W_outfit_not_found name])).
Proof.
  intros Hroot.
  assert (Hload : forall stack, outfit_load doc stack = Val (-1, stack)).
  { intros stack. unfold outfit_load.
    destruct (doc_children doc) as [| node rest] eqn:Hd; [reflexivity |].
    destruct (xml_isNode node XML_OUTFIT_ID) eqn:Hn; [| reflexivity].
    destruct (first_node_is_root doc node rest _ Hd Hn) as [Hr Hname].
    destruct (Hroot node Hr) as [Hbad | Hempty].
    - contradiction.
    - simpl. rewrite Hempty. reflexivity. }
  split; [exact Hload |].
  intros name. exists []. rewrite Hload. repeat split.
Qed.

Lemma outfit_load_bad_document_witness :
  outfit_load sample_wrong_root [] = Val (-1, []) /\
  outfit_load sample_empty_root [] = Val (-1, []).
Proof.
  split.
  - refine (proj1 (outfit_load_bad_document sample_wrong_root _) []).
    intros root Hr. injection Hr as <-. left. discriminate.
  - refine (proj1 (outfit_load_bad_document sample_empty_root _) []).
    intros root Hr. injection Hr as <-. right. reflexivity.
Defined.

(** ** The jammer parser *)

Lemma xml_isNode_excl (n : xmlNode) (a b : string) :
  xml_isNode n a = true -> a <> b -> xml_isNode n b = false.
Proof.
  unfold xml_isNode. intros Ha Hab.
  apply andb_true_iff in Ha. destruct Ha as [_ Ha].
  apply String.eqb_eq in Ha. subst a.
  apply andb_false_iff. right. apply String.eqb_neq. exact Hab.
Qed.

Lemma jammer_walk_fields {libs : Collaborators} (cs : list xmlNode) :
  forall j : OutfitJammerData,
    xml_walk outfit_parseSJammer_node cs j
    = mkJammer
        (fold_left (fun acc n => if xml_isNode n "range" then xml_getFloat n
                                 else acc) cs (jam_range j))
        (fold_left (fun acc n => if xml_isNode n "chance" then xml_getFloat n
                                 else acc) cs (jam_chance j))
        (fold_left (fun acc n => if xml_isNode n "energy" then xml_getFloat n
                                 else acc) cs (jam_energy j)).
Proof.
  unfold xml_walk. induction cs as [| n cs IH]; intros j.
  - destruct j; reflexivity.
  - simpl. rewrite IH. unfold outfit_parseSJammer_node.
    destruct (xml_isNode n "range") eqn:Hr.
    + rewrite (xml_isNode_excl n "range" "chance" Hr) by discriminate.
      rewrite (xml_isNode_excl n "range" "energy" Hr) by discriminate.
      reflexivity.
    + destruct (xml_isNode n "chance") eqn:Hc.
      * rewrite (xml_isNode_excl n "chance" "energy" Hc) by discriminate.
        reflexivity.
      * destruct (xml_isNode n "energy"); reflexivity.
Qed.

(** C9.  [outfit_parseSJammer] stores the range of the document, its chance
    divided by 100 and its energy divided by 60, each division done once;
    with the numbers 40 and 12 read for the chance and the energy of the
    sample entry, the stored chance is 0.40 and the stored energy 0.20. *)
Theorem outfit_parseSJammer_units {libs : Collaborators} (temp : Outfit) :
  o_u temp = U_zero ->
  (forall parent : xmlNode,
      outfit_parseSJammer temp parent
      = Val (with_u temp
               (U_jam (mkJammer
                         (xml_fieldFloat "range" (x_children parent))
                         (PrimFloat.div
                            (xml_fieldFloat "chance" (x_children parent)) 100)
                         (PrimFloat.div
                            (xml_fieldFloat "energy" (x_children parent)) 60)))))
  /\
  (atof "40" = 40%float -> atof "12" = 12%float ->
   outfit_parseSJammer temp sample_jammer_specific
   = Val (with_u temp (U_jam (mkJammer (atof "300") 0.4%float 0.2%float)))).
Proof.
  intros Hu.
  assert (Hgen : forall parent : xmlNode,
      outfit_parseSJammer temp parent
      = Val (with_u temp
               (U_jam (mkJammer
                         (xml_fieldFloat "range" (x_children parent))
                         (PrimFloat.div
                            (xml_fieldFloat "chance" (x_children parent)) 100)
                         (PrimFloat.div
                            (xml_fieldFloat "energy" (x_children parent)) 60))))).
  { intros parent. unfold outfit_parseSJammer, store. rewrite Hu. simpl.
    rewrite jammer_walk_fields. reflexivity. }
  split; [exact Hgen |].
  intros H40 H12. rewrite Hgen.
  unfold xml_fieldFloat, sample_jammer_specific, xml_getFloat. simpl.
  change (xml_get (xml_leaf "range" "300")) with "300".
  change (xml_get (xml_leaf "chance" "40")) with "40".
  change (xml_get (xml_leaf "energy" "12")) with "12".
  rewrite H40, H12. reflexivity.
Qed.

Lemma outfit_parseSJammer_units_witness :
  outfit_parseSJammer (outfit_calloc (Some "Jammer Mk1"))
                      sample_jammer_specific
  = Val (with_u (outfit_calloc (Some "Jammer Mk1"))
                (U_jam (mkJammer 300%float 0.4%float 0.2%float))).
Proof.
  exact (proj2 (outfit_parseSJammer_units
                  (outfit_calloc (Some "Jammer Mk1")) eq_refl)
               eq_refl eq_refl).
Defined.

(** ** outfit_load with a malformed entry *)

Section LoadTolerance.

Context {libs : Collaborators}.

Lemma general_keeps_type (cs : list xmlNode) :
  forall temp : Outfit,
    o_type (xml_walk outfit_parse_general cs temp) = o_type temp /\
    o_u (xml_walk outfit_parse_general cs temp) = o_u temp /\
    o_name (xml_walk outfit_parse_general cs temp) = o_name temp.
Proof.
  unfold xml_walk. induction cs as [| c cs IH]; intros temp; simpl.
  - auto.
  - destruct (IH (outfit_parse_general c temp)) as (Ht & Hu & Hn).
    rewrite Ht, Hu, Hn. unfold outfit_parse_general.
    repeat match goal with
           | |- context [xml_isNode ?n ?s] => destruct (xml_isNode n s); simpl
           end; auto.
Qed.

Lemma specific_unresolved (c : xmlNode) (temp : Outfit) :
  xml_isNode c "specific" = true ->
  specific_unresolvable c ->
  exists temp' : Outfit,
    outfit_parse_specific c temp = Val temp' /\
    o_type temp' = OUTFIT_TYPE_NULL /\ o_u temp' = o_u temp /\
    o_name temp' = o_name temp.
Proof.
  intros Hc Hbad. destruct (Hbad Hc) as (s & Hs & Hnull).
  unfold outfit_parse_specific. rewrite Hs.
  unfold unresolvable in Hnull. rewrite Hnull.
  destruct (xml_nodeProp c "secondary") as [p |];
    [destruct (negb (Z.eqb (atoi p) 0)) |];
    simpl; eexists; repeat split; reflexivity.
Qed.

Lemma malformed_entry_walk (cs : list xmlNode) :
  Forall specific_unresolvable cs ->
  forall temp : Outfit,
    o_type temp = OUTFIT_TYPE_NULL ->
    exists temp' : Outfit,
      xml_walkM outfit_parse_node cs temp = Val temp' /\
      o_type temp' = OUTFIT_TYPE_NULL /\ o_u temp' = o_u temp /\
      o_name temp' = o_name temp.
Proof.
  induction 1 as [| c cs Hc Hcs IH]; intros temp Ht; simpl.
  - eauto.
  - unfold outfit_parse_node at 1.
    destruct (xml_isNode c "general") eqn:Hg.
    + simpl. destruct (general_keeps_type (x_children c) temp) as (H1 & H2 & H3).
      destruct (IH (xml_walk outfit_parse_general (x_children c) temp))
        as (t' & Hw & Ht' & Hu' & Hn'); [congruence |].
      exists t'. rewrite Hw. repeat split; congruence.
    + destruct (xml_isNode c "specific") eqn:Hsp.
      * destruct (specific_unresolved c temp Hsp Hc) as (t1 & Hp & Ht1 & Hu1 & Hn1).
        rewrite Hp. simpl.
        destruct (IH t1 Ht1) as (t' & Hw & Ht' & Hu' & Hn').
        exists t'. rewrite Hw. repeat split; congruence.
      * simpl. apply IH. exact Ht.
Qed.

Lemma load_walk_entries (nodes : list xmlNode) :
  forall (outs : list Outfit) (stack : outfit_stack_t),
    parsed_entries nodes outs ->
    xml_walkM outfit_load_node nodes stack = Val (stack ++ outs)%list.
Proof.
  unfold parsed_entries.
  induction nodes as [| n nodes IH]; intros outs stack H; simpl in *.
  - inversion H. rewrite app_nil_r. reflexivity.
  - unfold outfit_load_node at 1.
    destruct (xml_isNode n XML_OUTFIT_TAG) eqn:Hn.
    + inversion H as [| e o es os Ho Hos]; subst.
      rewrite Ho. simpl. rewrite (IH os (stack ++ [o])%list Hos).
      rewrite <- app_assoc. reflexivity.
    + simpl. apply IH. exact H.
Qed.

Lemma walkM_app {S : Type} (body : xmlNode -> S -> cres S)
  (l1 l2 : list xmlNode) (s : S) :
  xml_walkM body (l1 ++ l2) s
  = (s' <- xml_walkM body l1 s ;; xml_walkM body l2 s').
Proof.
  revert s. induction l1 as [| n l1 IH]; intros s; simpl.
  - reflexivity.
  - destruct (body n s); simpl; auto.
Qed.

(** C5.  Let the root "Outfits" hold an "outfit" entry whose "specific"
    sections all carry a type string that the registry does not resolve, and
    let the entries before and after it parse.  Then [outfit_load] returns 0,
    and the stack afterwards is the stack before followed by the records of
    all the entries in document order, the malformed one included, with the
    null type, its name and an untouched payload. *)
Theorem outfit_load_keeps_malformed (doc : xmlDoc) (root bad : xmlNode)
  (others pre post : list xmlNode) (outs_pre outs_post : list Outfit)
  (stack : outfit_stack_t) :
  doc_children doc = root :: others ->
  xml_isNode root XML_OUTFIT_ID = true ->
  x_children root = (pre ++ bad :: post)%list ->
  xml_isNode bad XML_OUTFIT_TAG = true ->
  Forall specific_unresolvable (x_children bad) ->
  parsed_entries pre outs_pre ->
  parsed_entries post outs_post ->
  exists ob : Outfit,
    outfit_parse bad = Val ob /\
    o_type ob = OUTFIT_TYPE_NULL /\
    o_name ob = xml_nodeProp bad "name" /\
    o_u ob = U_zero /\
    outfit_load doc stack
    = Val (0, (stack ++ outs_pre ++ ob :: outs_post)%list).
Proof.
  intros Hdoc Hroot Hch Hbad Hspec Hpre Hpost.
  destruct (malformed_entry_walk (x_children bad) Hspec
              (outfit_calloc (xml_nodeProp bad "name")) eq_refl)
    as (ob & Hob & Hty & Hu & Hnm).
  exists ob. repeat split; try assumption.
  assert (Hwalk : xml_walkM outfit_load_node (x_children root) stack
                  = Val (stack ++ outs_pre ++ ob :: outs_post)%list).
  { rewrite Hch, walkM_app.
    rewrite (load_walk_entries pre outs_pre stack Hpre). simpl.
    unfold outfit_load_node at 1. rewrite Hbad.
    unfold outfit_parse in Hob |- *. rewrite Hob. simpl.
    rewrite (load_walk_entries post outs_post _ Hpost).
    rewrite <- !app_assoc. reflexivity. }
  unfold outfit_load. rewrite Hdoc, Hroot. cbn [negb].
  destruct (x_children root) as [| c cs] eqn:Hcs.
  - destruct pre; discriminate.
  - cbv iota beta. rewrite Hwalk. reflexivity.
Qed.

End LoadTolerance.

Lemma sample_malformed_unresolvable :
  Forall specific_unresolvable (x_children sample_malformed).
Proof.
  repeat constructor.
  - intros H. discriminate H.
  - intros _. exists "cloaking device". split; reflexivity.
Defined.

Lemma outfit_load_keeps_malformed_witness :
  exists ob : Outfit,
    outfit_parse sample_malformed = Val ob /\
    o_type ob = OUTFIT_TYPE_NULL /\
    o_name ob = Some "Mystery Box" /\
    o_u ob = U_zero /\
    outfit_load sample_document []
    = Val (0, [sample_jammer_outfit; ob; sample_beam_outfit]).
Proof.
  refine (outfit_load_keeps_malformed sample_document
            (xml_elem "Outfits" []
               [sample_jammer; xml_text " "; sample_malformed; sample_beam])
            sample_malformed [] [sample_jammer; xml_text " "] [sample_beam]
            [sample_jammer_outfit] [sample_beam_outfit] []
            eq_refl eq_refl eq_refl eq_refl sample_malformed_unresolvable
            _ _).
  - constructor; [reflexivity | constructor].
  - constructor; [reflexivity | constructor].
Defined.

(** ** outfit_getTech *)

Lemma name_listed_spec (names : list string) (x : string) :
  name_listed names (Some x)
  = Val (existsb (fun s => String.eqb s x) names).
Proof.
  induction names as [| s names IH]; simpl.
  - reflexivity.
  - destruct (String.eqb s x); [reflexivity | exact IH].
Qed.

Lemma listed_iff (names : list string) (x : string) :
  existsb (fun s => String.eqb s x) names = true <-> In x names.
Proof.
  rewrite existsb_exists. split.
  - intros (s & Hin & He). apply String.eqb_eq in He. subst s. exact Hin.
  - intros Hin. exists x. split; [exact Hin | apply String.eqb_refl].
Qed.

Lemma StronglySorted_snoc {A : Type} (R : A -> A -> Prop) (l : list A)
  (x : A) :
  StronglySorted R l -> Forall (fun y => R y x) l ->
  StronglySorted R (l ++ [x]).
Proof.
  induction 1 as [| a l Hl IH Ha]; intros Hx; simpl.
  - constructor; constructor.
  - inversion Hx as [| ? ? Hax Hlx]; subst.
    constructor; [apply IH; exact Hlx |].
    apply Forall_app. split; [exact Ha | constructor; [exact Hax | constructor]].
Qed.

Lemma listed_not_unlisted (names : list string) (o : Outfit) :
  listed names o -> unlisted names o -> False.
Proof. intros (s & Hs & Hin) (s' & Hs' & Hout). congruence. Qed.

(** The inner loop returns the first of the cheapest outfits of the current
    type whose name is not listed yet. *)
Lemma getTech_cheapest_spec (names : list string) (ty : OutfitType)
  (l : list Outfit) :
  Forall named l ->
  forall price : option Outfit,
    (forall p, price = Some p -> o_type p = ty /\ unlisted names p) ->
    exists r : option Outfit,
      getTech_cheapest names ty l price = Val r /\
      match r with
      | None =>
          price = None /\
          forall o, In o l -> o_type o = ty -> listed names o
      | Some p' =>
          o_type p' = ty /\ unlisted names p' /\
          (price = Some p' \/ In p' l) /\
          (forall p, price = Some p -> o_price p' <= o_price p) /\
          (forall o, In o l -> o_type o = ty -> unlisted names o ->
                     o_price p' <= o_price o)
      end.
Proof.
  induction 1 as [| oj rest Hoj Hrest IH]; intros price Hprice; simpl.
  - exists price. split; [reflexivity |].
    destruct price as [p |].
    + destruct (Hprice p eq_refl) as [Ht Hu].
      repeat split; auto.
      * intros q Hq. injection Hq as <-. lia.
      * intros o [].
    + split; [reflexivity | intros o []].
  - destruct (teq (o_type oj) ty) eqn:Hty; simpl.
    + apply teq_true in Hty.
      destruct (o_name oj) as [s |] eqn:Hs; [| elim Hoj; exact Hs].
      assert (Hcase :
                (match price with
                 | None => true
                 | Some p => Z.gtb (o_price p) (o_price oj)
                 end = true /\
                 (forall p, price = Some p -> o_price oj < o_price p)) \/
                (match price with
                 | None => true
                 | Some p => Z.gtb (o_price p) (o_price oj)
                 end = false /\
                 exists p, price = Some p /\ o_price p <= o_price oj)).
      { destruct price as [p |].
        - destruct (Z.gtb (o_price p) (o_price oj)) eqn:Hg.
          + left. split; [reflexivity |].
            intros q Hq. injection Hq as <-.
            apply Z.gtb_lt in Hg. lia.
          + right. split; [reflexivity |]. exists p. split; [reflexivity |].
            destruct (Z.gtb_spec (o_price p) (o_price oj)); [discriminate | lia].
        - left. split; [reflexivity | intros q Hq; discriminate Hq]. }
      destruct Hcase as [[Hc Hlt] | [Hc (p & Hp & Hle)]]; rewrite Hc.
      * rewrite name_listed_spec. simpl.
        destruct (existsb (fun s0 => String.eqb s0 s) names) eqn:Hl.
        -- apply listed_iff in Hl.
           destruct (IH price Hprice) as (r & Hr & Hpost).
           exists r. split; [exact Hr |].
           destruct r as [p' |].
           ++ destruct Hpost as (H1 & H2 & H3 & H4 & H5).
              repeat split; auto.
              ** destruct H3 as [H3 | H3]; [left; exact H3 | right; right; exact H3].
              ** intros o [<- | Hin] Hot Hou; [| auto].
                 exfalso. apply (listed_not_unlisted names oj); [| exact Hou].
                 exists s. auto.
           ++ destruct Hpost as (H1 & H2). split; [exact H1 |].
              intros o [<- | Hin] Hot; [exists s; auto | auto].
        -- assert (Hout : ~ In s names).
           { intros Hin. apply listed_iff in Hin. congruence. }
           destruct (IH (Some oj)) as (r & Hr & Hpost).
           { intros q Hq. injection Hq as <-. split; [exact Hty |].
             exists s. auto. }
           exists r. split; [exact Hr |].
           destruct r as [p' |]; [| destruct Hpost as [Hx _]; discriminate Hx].
           destruct Hpost as (H1 & H2 & H3 & H4 & H5).
           repeat split; auto.
           ++ right. destruct H3 as [H3 | H3];
                [injection H3 as <-; left; reflexivity | right; exact H3].
           ++ intros q Hq. specialize (Hlt q Hq). specialize (H4 oj eq_refl).
              lia.
           ++ intros o [<- | Hin] Hot Hou; [apply H4; reflexivity | auto].
      * destruct (IH price Hprice) as (r & Hr & Hpost).
        exists r. split; [exact Hr |].
        destruct r as [p' |];
          [| destruct Hpost as [Hx _]; rewrite Hp in Hx; discriminate Hx].
        destruct Hpost as (H1 & H2 & H3 & H4 & H5).
        repeat split; auto.
        -- destruct H3 as [H3 | H3]; [left; exact H3 | right; right; exact H3].
        -- intros o [<- | Hin] Hot Hou; [| auto].
           specialize (H4 p Hp). lia.
    + apply teq_false in Hty.
      destruct (IH price Hprice) as (r & Hr & Hpost).
      exists r. split; [exact Hr |].
      destruct r as [p' |].
      * destruct Hpost as (H1 & H2 & H3 & H4 & H5).
        repeat split; auto.
        -- destruct H3 as [H3 | H3]; [left; exact H3 | right; right; exact H3].
        -- intros o [<- | Hin] Hot Hou; [contradiction | auto].
      * destruct Hpost as (H1 & H2). split; [exact H1 |].
        intros o [<- | Hin] Hot; [contradiction | auto].
Qed.

Section SortLoop.

Variable outfits : list Outfit.
Hypothesis outfits_named : Forall named outfits.

Lemma sort_inv_init : sort_inv outfits [] (OUTFIT_TYPE_NULL + 1) [].
Proof.
  constructor; simpl; try constructor.
  - intros s o [].
  - intros o _ H. unfold OUTFIT_TYPE_NULL in H. lia.
  - unfold OUTFIT_TYPE_NULL. lia.
  - unfold OUTFIT_TYPE_NULL, OUTFIT_TYPE_SENTINEL. lia.
Qed.

Lemma sort_inv_length (names : list string) (ty : OutfitType)
  (sel : list Outfit) :
  sort_inv outfits names ty sel -> (length names <= length outfits)%nat.
Proof.
  intros I.
  rewrite <- (length_map Some names), <- (length_map o_name outfits).
  apply NoDup_incl_length.
  - apply Finite.Injective_map_NoDup; [| exact (inv_nodup _ _ _ _ I)].
    intros a b H. injection H as ->. reflexivity.
  - rewrite <- (inv_names _ _ _ _ I). intros x Hx.
    apply in_map_iff in Hx. destruct Hx as (o & <- & Ho).
    apply in_map. pose proof (inv_in _ _ _ _ I) as Hin.
    rewrite Forall_forall in Hin. auto.
Qed.

(** No name is left for the current type: the loop goes on to the next. *)
Lemma sort_inv_next (names : list string) (ty : OutfitType)
  (sel : list Outfit) :
  sort_inv outfits names ty sel ->
  ty < OUTFIT_TYPE_SENTINEL ->
  (forall o, In o outfits -> o_type o = ty -> listed names o) ->
  sort_inv outfits names (ty + 1) sel.
Proof.
  intros I Hty Hall. destruct I as [Hn Hi Ht Hs Hd Hm Hdone Hr].
  constructor; auto.
  - eapply Forall_impl; [| exact Ht]. simpl. intros o Ho. lia.
  - intros s o Hs' Hts. rewrite Forall_forall in Ht.
    specialize (Ht s Hs'). lia.
  - intros o Ho Hto.
    destruct (Z.eq_dec (o_type o) ty) as [He | He]; [auto |].
    apply Hdone; [exact Ho | lia].
  - lia.
Qed.

(** The cheapest unlisted outfit of the current type is appended. *)
Lemma sort_inv_append (names : list string) (ty : OutfitType)
  (sel : list Outfit) (p : Outfit) (s : string) :
  sort_inv outfits names ty sel ->
  ty < OUTFIT_TYPE_SENTINEL ->
  In p outfits -> o_type p = ty -> o_name p = Some s -> ~ In s names ->
  (forall o, In o outfits -> o_type o = ty -> unlisted names o ->
             o_price p <= o_price o) ->
  sort_inv outfits (names ++ [s]) ty (sel ++ [p]).
Proof.
  intros I Hty Hp Htp Hs Hout Hmin.
  destruct I as [Hn Hi Ht Hsrt Hd Hm Hdone Hr].
  assert (Hweak : forall o, unlisted (names ++ [s]) o -> unlisted names o).
  { intros o (x & Hx & Hnx). exists x. split; [exact Hx |].
    intros Hin. apply Hnx. apply in_or_app. left. exact Hin. }
  constructor.
  - rewrite !map_app. simpl. rewrite Hn, Hs. reflexivity.
  - apply Forall_app. split; [exact Hi | constructor; [exact Hp | constructor]].
  - apply Forall_app. split; [exact Ht |].
    constructor; [lia | constructor].
  - apply StronglySorted_snoc; [exact Hsrt |].
    rewrite Forall_forall in *. intros y Hy. unfold type_price_le.
    specialize (Ht y Hy). specialize (Hi y Hy).
    destruct (Z.eq_dec (o_type y) ty) as [He | He].
    + right. split; [congruence |].
      apply (Hm y p Hy He Hp Htp). exists s. auto.
    + left. lia.
  - apply NoDup_app_remove_l with (l := []). simpl.
    apply NoDup_rev in Hd. rewrite <- (rev_involutive (names ++ [s])).
    apply NoDup_rev. rewrite rev_app_distr. simpl.
    constructor; [| exact Hd].
    intros Hin. apply Hout. apply in_rev. exact Hin.
  - intros x o Hx Htx Ho Hto Hu.
    apply in_app_or in Hx. destruct Hx as [Hx | [<- | []]].
    + apply (Hm x o); auto.
    + apply Hmin; auto.
  - intros o Ho Hto. destruct (Hdone o Ho Hto) as (x & Hx & Hin).
    exists x. split; [exact Hx | apply in_or_app; left; exact Hin].
  - exact Hr.
Qed.

Lemma getTech_sort_spec (fuel : nat) :
  forall (names : list string) (ty : OutfitType) (sel : list Outfit),
    sort_inv outfits names ty sel ->
    (Z.to_nat (OUTFIT_TYPE_SENTINEL - ty)
     + (length outfits - length names) < fuel)%nat ->
    exists (names' : list string) (sel' : list Outfit),
      getTech_sort fuel outfits names ty = Some (Val names') /\
      sort_inv outfits names' OUTFIT_TYPE_SENTINEL sel'.
Proof.
  induction fuel as [| fuel IH]; intros names ty sel I Hfuel; [lia |].
  simpl. destruct (Z.ltb ty OUTFIT_TYPE_SENTINEL) eqn:Hlt.
  - apply Z.ltb_lt in Hlt.
    destruct (getTech_cheapest_spec names ty outfits outfits_named None)
      as (r & Hr & Hpost); [intros p Hp; discriminate Hp |].
    rewrite Hr. destruct r as [p |].
    + destruct Hpost as (Htp & (s & Hs & Hout) & Hin & _ & Hmin).
      destruct Hin as [Hin | Hin]; [discriminate Hin |].
      rewrite Hs.
      pose proof (sort_inv_append names ty sel p s I Hlt Hin Htp Hs Hout Hmin)
        as I'.
      pose proof (sort_inv_length _ _ _ I') as Hlen.
      rewrite length_app in Hlen. simpl in Hlen.
      apply (IH _ _ _ I'). rewrite length_app. cbn [length].
      set (m := Z.to_nat (OUTFIT_TYPE_SENTINEL - ty)) in *. lia.
    + destruct Hpost as (_ & Hall).
      pose proof (sort_inv_next names ty sel I Hlt Hall) as I'.
      apply (IH _ _ _ I').
      pose proof (inv_range _ _ _ _ I) as Hr'.
      unfold OUTFIT_TYPE_SENTINEL in *. lia.
  - apply Z.ltb_ge in Hlt. pose proof (inv_range _ _ _ _ I) as Hr.
    assert (ty = OUTFIT_TYPE_SENTINEL) by lia. subst ty.
    exists names, sel. split; [reflexivity | exact I].
Qed.

End SortLoop.

(** The first loop: what it stores, and how much. *)
Lemma getTech_entry_in (t0 : Z) (tech : list Z) (o o' : Outfit) :
  In t0 tech ->
  In o' (getTech_entry t0 tech o) <->
  o' = o /\ (o_tech o <= t0 \/ In (o_tech o) tech).
Proof.
  intros Ht0. unfold getTech_entry.
  destruct (Z.leb (o_tech o) t0) eqn:Hle.
  - apply Z.leb_le in Hle. simpl. split.
    + intros [<- | []]. auto.
    + intros [-> _]. auto.
  - apply Z.leb_gt in Hle. rewrite in_flat_map. split.
    + intros (t & Ht & Hin). destruct (Z.eqb t (o_tech o)) eqn:He.
      * apply Z.eqb_eq in He. subst t. destruct Hin as [<- | []]. auto.
      * destruct Hin.
    + intros [-> [Hl | Hin]]; [lia |].
      exists (o_tech o). split; [exact Hin |].
      rewrite Z.eqb_refl. left. reflexivity.
Qed.

Lemma getTech_available_in (t0 : Z) (tech : list Z) (stack : outfit_stack_t)
  (o : Outfit) :
  In t0 tech ->
  In o (getTech_available t0 tech stack) <->
  In o stack /\ (o_tech o <= t0 \/ In (o_tech o) tech).
Proof.
  intros Ht0. unfold getTech_available. rewrite in_flat_map. split.
  - intros (x & Hx & Hin). apply (getTech_entry_in t0 tech x o Ht0) in Hin.
    destruct Hin as [-> H]. auto.
  - intros [Hin H]. exists o. split; [exact Hin |].
    apply (getTech_entry_in t0 tech o o Ht0). auto.
Qed.

Lemma matches_once (tech : list Z) (x : Z) (o : Outfit) :
  NoDup tech ->
  (length (flat_map (fun t => if Z.eqb t x then [o] else []) tech) <= 1)%nat.
Proof.
  induction 1 as [| t tech Hnot Hnd IH]; simpl.
  - lia.
  - rewrite length_app. destruct (Z.eqb t x) eqn:He; simpl; [| exact IH].
    apply Z.eqb_eq in He. subst t.
    assert (Hnil : flat_map (fun t => if Z.eqb t x then [o] else []) tech = []).
    { clear IH Hnd. induction tech as [| t tech IH]; simpl; [reflexivity |].
      destruct (Z.eqb t x) eqn:He.
      - apply Z.eqb_eq in He. subst t. elim Hnot. left. reflexivity.
      - simpl. apply IH. intros Hin. apply Hnot. right. exact Hin. }
    rewrite Hnil. simpl. lia.
Qed.

Lemma getTech_available_length (t0 : Z) (tech : list Z)
  (stack : outfit_stack_t) :
  NoDup tech ->
  (length (getTech_available t0 tech stack) <= length stack)%nat.
Proof.
  intros Hnd. unfold getTech_available.
  induction stack as [| o stack IH]; simpl; [lia |].
  rewrite length_app.
  assert (length (getTech_entry t0 tech o) <= 1)%nat.
  { unfold getTech_entry. destruct (Z.leb (o_tech o) t0); simpl; [lia |].
    apply matches_once. exact Hnd. }
  lia.
Qed.

(** C2, as the code has it.  For a catalog whose entries all have a name
    and a technology array without repeated codes, [outfit_getTech] returns,
    and the names it returns are those of outfits of the catalog that pass
    the technology filter, ordered by exact type code (not by broad type) in
    the ascending order of the enumeration and, within one type code, by
    ascending price; no name appears twice in the whole listing, and every
    outfit with a non-null type that passes the filter has its name
    listed. *)
Theorem outfit_getTech_sorted (tech : list Z) (stack : outfit_stack_t) :
  tech <> [] -> NoDup tech -> Forall named stack ->
  exists (names : list string) (sel : list Outfit),
    outfit_getTech tech stack = Some (Val names) /\
    map o_name sel = map Some names /\
    Forall (fun o => In o stack /\ tech_available tech o /\
                     1 <= o_type o < OUTFIT_TYPE_SENTINEL) sel /\
    StronglySorted type_price_le sel /\
    NoDup names /\
    (forall o, In o stack -> tech_available tech o ->
               1 <= o_type o < OUTFIT_TYPE_SENTINEL -> listed names o).
Proof.
  intros Hne Hnd Hnamed.
  destruct tech as [| t0 rest]; [contradiction |].
  assert (Ht0 : In t0 (t0 :: rest)) by (left; reflexivity).
  set (outfits := getTech_available t0 (t0 :: rest) stack).
  assert (Hon : Forall named outfits).
  { rewrite Forall_forall in *. intros o Ho.
    apply (getTech_available_in t0 _ stack o Ht0) in Ho.
    destruct Ho as [Ho _]. auto. }
  destruct (getTech_sort_spec outfits Hon (length outfits + 19) [] _ []
              (sort_inv_init outfits)) as (names & sel & Hrun & I).
  { unfold OUTFIT_TYPE_SENTINEL, OUTFIT_TYPE_NULL. simpl. lia. }
  exists names, sel.
  destruct I as [Hn Hi Ht Hs Hd Hm Hdone Hr].
  split; [| split; [exact Hn | split; [| split; [exact Hs | split;
                                                   [exact Hd |]]]]].
  - unfold outfit_getTech. fold outfits.
    pose proof (getTech_available_length t0 (t0 :: rest) stack Hnd) as Hlen.
    fold outfits in Hlen.
    destruct (Nat.ltb (length stack) (length outfits)) eqn:Hov.
    + apply Nat.ltb_lt in Hov. lia.
    + exact Hrun.
  - rewrite Forall_forall in *. intros o Ho.
    pose proof (Hi o Ho) as Hin.
    apply (getTech_available_in t0 _ stack o Ht0) in Hin.
    destruct Hin as [Hin Hta]. specialize (Ht o Ho).
    split; [exact Hin | split; [exact Hta | lia]].
  - intros o Hin Hta Hty. apply Hdone; [| exact Hty].
    apply (getTech_available_in t0 _ stack o Ht0). split; [exact Hin |].
    exact Hta.
Qed.

Lemma outfit_getTech_sorted_witness :
  exists (names : list string) (sel : list Outfit),
    outfit_getTech [1] sample_weapons = Some (Val names) /\
    map o_name sel = map Some names /\
    Forall (fun o => In o sample_weapons /\ tech_available [1] o /\
                     1 <= o_type o < OUTFIT_TYPE_SENTINEL) sel /\
    StronglySorted type_price_le sel /\
    NoDup names /\
    (forall o, In o sample_weapons -> tech_available [1] o ->
               1 <= o_type o < OUTFIT_TYPE_SENTINEL -> listed names o).
Proof.
  refine (outfit_getTech_sorted [1] sample_weapons _ _ sample_weapons_named).
  - discriminate.
  - constructor; [intros [] | constructor].
Defined.

(** C2 as stated fails: of three weapons of one technology level the
    listing names the bolt cannon, the beam and the bolt turret in that
    order, so the broad type "Bolt Weapon" comes back after "Beam Weapon",
    and the two bolt weapons are listed with the dearer one first. *)
Lemma getTech_broad_counterexample :
  outfit_getTech [1] sample_weapons
    = Some (Val ["Laser Cannon"; "Ion Beam"; "Laser Turret"]) /\
  listing_broad sample_weapons ["Laser Cannon"; "Ion Beam"; "Laser Turret"]
    = ["Bolt Weapon"; "Beam Weapon"; "Bolt Weapon"] /\
  grouped (listing_broad sample_weapons
             ["Laser Cannon"; "Ion Beam"; "Laser Turret"]) = false /\
  listing_price sample_weapons ["Laser Cannon"; "Ion Beam"; "Laser Turret"]
    = [500; 300; 100].
Proof. repeat split; reflexivity. Qed.

(** * Further properties *)

(** ** The type predicates and the broad type *)

Ltac unfold_types :=
  cbv [OUTFIT_TYPE_NULL OUTFIT_TYPE_BOLT OUTFIT_TYPE_BEAM
       OUTFIT_TYPE_TURRET_BOLT OUTFIT_TYPE_TURRET_BEAM
       OUTFIT_TYPE_MISSILE_DUMB OUTFIT_TYPE_MISSILE_DUMB_AMMO
       OUTFIT_TYPE_MISSILE_SEEK OUTFIT_TYPE_MISSILE_SEEK_AMMO
       OUTFIT_TYPE_MISSILE_SEEK_SMART OUTFIT_TYPE_MISSILE_SEEK_SMART_AMMO
       OUTFIT_TYPE_MISSILE_SWARM OUTFIT_TYPE_MISSILE_SWARM_AMMO
       OUTFIT_TYPE_MISSILE_SWARM_SMART OUTFIT_TYPE_MISSILE_SWARM_SMART_AMMO
       OUTFIT_TYPE_MODIFCATION OUTFIT_TYPE_AFTERBURNER OUTFIT_TYPE_JAMMER
       OUTFIT_TYPE_MAP OUTFIT_TYPE_SENTINEL] in *.

Lemma variant_type_cases (t : Z) :
  1 <= t < OUTFIT_TYPE_SENTINEL ->
  In t [1; 2; 3; 4; 5; 6; 7; 8; 9; 10; 11; 12; 13; 14; 15; 16; 17; 18].
Proof. unfold OUTFIT_TYPE_SENTINEL. simpl. lia. Qed.

(** Outside the codes 1..18 every type test of the predicates fails. *)
Ltac tests_fail :=
  repeat match goal with
         | |- context [teq ?a ?b] =>
             rewrite (proj2 (teq_false a b)) by (unfold_types; lia)
         end.

(** X1.  The eight predicates on which the parser dispatches split the type
    codes: exactly one holds of each code from 1 to 18 and none holds of any
    other code; a turret is a bolt or a beam weapon, a fixed weapon is not a
    turret, and a seeker is an ammo other than the dumb missile's. *)
Theorem variant_predicates_partition (o : Outfit) :
  (1 <= o_type o < OUTFIT_TYPE_SENTINEL ->
   count_true (variant_predicates o) = 1%nat) /\
  (~ (1 <= o_type o < OUTFIT_TYPE_SENTINEL) ->
   count_true (variant_predicates o) = 0%nat) /\
  (outfit_isTurret o = true ->
   outfit_isBolt o = true \/ outfit_isBeam o = true) /\
  (outfit_isWeapon o = true ->
   outfit_isTurret o = false /\
   (outfit_isBolt o = true \/ outfit_isBeam o = true)) /\
  (outfit_isSeeker o = true ->
   outfit_isAmmo o = true /\ o_type o <> OUTFIT_TYPE_MISSILE_DUMB_AMMO).
Proof.
  destruct o as [nm mx tc ms pr ds gs ty pp un].
  unfold variant_predicates, count_true, outfit_isSeeker, outfit_isWeapon.
  unfold_preds. simpl o_type.
  split; [| split; [| split; [| split]]].
  - intros H. apply variant_type_cases in H. simpl in H.
    repeat (destruct H as [H | H]; [subst ty; reflexivity |]). destruct H.
  - intros H. tests_fail. reflexivity.
  - intros H. apply orb_true_iff in H. destruct H as [H | H]; rewrite H.
    + left. apply orb_true_r.
    + right. apply orb_true_r.
  - intros H. apply orb_true_iff in H.
    destruct H as [H | H]; apply teq_true in H; subst ty; simpl; auto.
  - intros H.
    destruct (teq ty OUTFIT_TYPE_MISSILE_SEEK_AMMO
              || teq ty OUTFIT_TYPE_MISSILE_SEEK_SMART_AMMO
              || teq ty OUTFIT_TYPE_MISSILE_SWARM_AMMO
              || teq ty OUTFIT_TYPE_MISSILE_SWARM_SMART_AMMO) eqn:Hs;
      [| discriminate H].
    repeat (apply orb_true_iff in Hs; destruct Hs as [Hs | Hs]);
      apply teq_true in Hs; subst ty; split; (reflexivity || discriminate).
Qed.

Lemma variant_predicates_partition_witness :
  count_true (variant_predicates sample_ammo) = 1%nat /\
  count_true (variant_predicates (outfit_calloc None)) = 0%nat /\
  (outfit_isAmmo sample_ammo = true /\
   o_type sample_ammo <> OUTFIT_TYPE_MISSILE_DUMB_AMMO).
Proof.
  split; [| split].
  - apply (proj1 (variant_predicates_partition sample_ammo)).
    cbv. split; [intros H; discriminate H | reflexivity].
  - apply (proj1 (proj2 (variant_predicates_partition (outfit_calloc None)))).
    cbv. intros [H _]. apply H. reflexivity.
  - apply (proj2 (proj2 (proj2 (proj2
             (variant_predicates_partition sample_ammo))))).
    reflexivity.
Defined.

(** X2.  [outfit_getTypeBroad] names the predicate that holds: "Bolt
    Weapon" exactly for the bolt types, "Beam Weapon" for the beam types,
    "Launcher" for the five launchers, "Ammo" for the five ammunitions,
    "Modification", "Afterburner", "Jammer" and "Map" for their types, and
    "NULL" exactly for the codes outside 1..18. *)
Theorem outfit_getTypeBroad_names (o : Outfit) :
  (outfit_getTypeBroad o = "Bolt Weapon" <-> outfit_isBolt o = true) /\
  (outfit_getTypeBroad o = "Beam Weapon" <-> outfit_isBeam o = true) /\
  (outfit_getTypeBroad o = "Launcher" <-> outfit_isLauncher o = true) /\
  (outfit_getTypeBroad o = "Ammo" <-> outfit_isAmmo o = true) /\
  (outfit_getTypeBroad o = "Modification" <-> outfit_isMod o = true) /\
  (outfit_getTypeBroad o = "Afterburner" <->
   outfit_isAfterburner o = true) /\
  (outfit_getTypeBroad o = "Jammer" <-> outfit_isJammer o = true) /\
  (outfit_getTypeBroad o = "Map" <-> outfit_isMap o = true) /\
  (outfit_getTypeBroad o = "NULL" <->
   ~ (1 <= o_type o < OUTFIT_TYPE_SENTINEL)).
Proof.
  destruct o as [nm mx tc ms pr ds gs ty pp un].
  unfold outfit_getTypeBroad. unfold_preds. simpl o_type.
  destruct (Z_le_dec 1 ty) as [Hlo | Hlo];
    [destruct (Z_lt_dec ty OUTFIT_TYPE_SENTINEL) as [Hhi | Hhi] |].
  - assert (H : 1 <= ty < OUTFIT_TYPE_SENTINEL) by lia.
    apply variant_type_cases in H. simpl in H.
    repeat (destruct H as [H | H];
            [subst ty; simpl;
             repeat split; intros; try reflexivity; try discriminate;
             try (unfold_types; lia);
             try (match goal with
                  | Hn : ~ _ |- _ => exfalso; apply Hn; unfold_types; lia
                  end) |]).
    destruct H.
  - tests_fail. simpl.
    repeat split; intros; try reflexivity; try discriminate;
      unfold_types; lia.
  - tests_fail. simpl.
    repeat split; intros; try reflexivity; try discriminate;
      unfold_types; lia.
Qed.

Lemma outfit_getTypeBroad_names_witness :
  outfit_getTypeBroad sample_ammo = "Ammo" /\
  outfit_isBeam sample_beam_outfit = true.
Proof.
  split.
  - apply (proj2 (proj1 (proj2 (proj2 (proj2
             (outfit_getTypeBroad_names sample_ammo)))))).
    reflexivity.
  - apply (proj1 (proj1 (proj2 (outfit_getTypeBroad_names sample_beam_outfit)))).
    reflexivity.
Defined.

(** ** The damage types *)

Lemma outfit_strToDamageType_cases (buf : string) :
  (In buf damage_type_names /\
   In (outfit_strToDamageType buf)
      [DAMAGE_TYPE_ENERGY; DAMAGE_TYPE_KINETIC; DAMAGE_TYPE_ION;
       DAMAGE_TYPE_RADIATION]) \/
  (~ In buf damage_type_names /\
   outfit_strToDamageType buf = DAMAGE_TYPE_NULL).
Proof.
  unfold outfit_strToDamageType, damage_type_names.
  destruct (String.eqb buf "energy") eqn:H1;
    [apply String.eqb_eq in H1; subst; left; simpl; auto |].
  destruct (String.eqb buf "kinetic") eqn:H2;
    [apply String.eqb_eq in H2; subst; left; simpl; auto |].
  destruct (String.eqb buf "ion") eqn:H3;
    [apply String.eqb_eq in H3; subst; left; simpl; auto 6 |].
  destruct (String.eqb buf "radiation") eqn:H4;
    [apply String.eqb_eq in H4; subst; left; simpl; auto 6 |].
  right. split; [| reflexivity].
  apply String.eqb_neq in H1, H2, H3, H4.
  simpl. intros [H | [H | [H | [H | []]]]]; congruence.
Qed.

(** X3.  A damage type read from a document is one of the four types when
    its string is "energy", "kinetic", "ion" or "radiation" (matched exactly,
    in this spelling) and the null type otherwise; so [outfit_calcDamage] on
    it warns exactly when the string is none of the four, and then all three
    outputs are zero. *)
Theorem damage_string_then_calc (buf : string) (dmg : float) :
  (snd (outfit_calcDamage (outfit_strToDamageType buf) dmg) = [] <->
   In buf damage_type_names) /\
  (~ In buf damage_type_names ->
   outfit_calcDamage (outfit_strToDamageType buf) dmg
   = ((0%float, 0%float, 0%float),
      [W_unknown_damage_type DAMAGE_TYPE_NULL])).
Proof.
  destruct (outfit_strToDamageType_cases buf) as [[Hin Hty] | [Hout Hty]].
  - split; [| intros Hn; contradiction].
    split; [intros _; exact Hin | intros _].
    simpl in Hty.
    destruct Hty as [<- | [<- | [<- | [<- | []]]]]; reflexivity.
  - rewrite Hty. split; [| intros _; reflexivity].
    split; [intros H; discriminate H | intros H; contradiction].
Qed.

Lemma damage_string_then_calc_witness :
  outfit_calcDamage (outfit_strToDamageType "Kinetic") 12%float
  = ((0%float, 0%float, 0%float), [W_unknown_damage_type DAMAGE_TYPE_NULL]) /\
  In "ion" damage_type_names.
Proof.
  split.
  - apply (proj2 (damage_string_then_calc "Kinetic" 12%float)).
    simpl. intros [H | [H | [H | [H | []]]]]; discriminate H.
  - apply (proj1 (proj1 (damage_string_then_calc "ion" 12%float))).
    reflexivity.
Defined.

(** ** The registry of type strings *)

Lemma registry_string_of_code (s : string) (t : OutfitType) :
  outfit_strToOutfitType s = t -> t <> OUTFIT_TYPE_NULL ->
  nth (Z.to_nat t) outfit_typestring "" = s.
Proof.
  unfold outfit_strToOutfitType.
  repeat match goal with
         | |- context [String.eqb s ?k] =>
             let E := fresh "E" in
             destruct (String.eqb s k) eqn:E;
             [apply String.eqb_eq in E; subst s; intros <- _; reflexivity
             | clear E]
         end.
  intros <- H. elim H. reflexivity.
Qed.

Lemma registry_code_range (s : string) :
  0 <= outfit_strToOutfitType s < OUTFIT_TYPE_SENTINEL.
Proof.
  unfold outfit_strToOutfitType.
  repeat match goal with
         | |- context [String.eqb s ?k] => destruct (String.eqb s k)
         end; unfold_types; lia.
Qed.

(** X4.  The registry is a bijection between its eighteen type strings and
    the type codes 1..18: the string listed for a code goes to that code, a
    string that goes to a non-null code is the one listed for it (so no two
    strings share a code), and every string goes to a valid code, the null
    code when it is not a registry string. *)
Theorem registry_round_trip :
  (forall t : OutfitType,
      1 <= t < OUTFIT_TYPE_SENTINEL ->
      outfit_strToOutfitType (nth (Z.to_nat t) outfit_typestring "") = t) /\
  (forall (s : string) (t : OutfitType),
      outfit_strToOutfitType s = t -> t <> OUTFIT_TYPE_NULL ->
      nth (Z.to_nat t) outfit_typestring "" = s) /\
  (forall s s' : string,
      outfit_strToOutfitType s = outfit_strToOutfitType s' ->
      outfit_strToOutfitType s <> OUTFIT_TYPE_NULL -> s = s') /\
  (forall s : string,
      0 <= outfit_strToOutfitType s < OUTFIT_TYPE_SENTINEL /\
      (~ In s outfit_typestring ->
       outfit_strToOutfitType s = OUTFIT_TYPE_NULL)).
Proof.
  split; [| split; [| split]].
  - intros t H. apply variant_type_cases in H. simpl in H.
    repeat (destruct H as [H | H]; [subst t; reflexivity |]). destruct H.
  - exact registry_string_of_code.
  - intros s s' Heq Hnn.
    rewrite <- (registry_string_of_code s _ eq_refl Hnn).
    rewrite Heq in Hnn |- *.
    apply (registry_string_of_code s' _ eq_refl Hnn).
  - intros s. split; [apply registry_code_range |].
    intros Hout.
    destruct (Z.eq_dec (outfit_strToOutfitType s) OUTFIT_TYPE_NULL)
      as [He | Hne]; [exact He |].
    exfalso. apply Hout.
    rewrite <- (registry_string_of_code s _ eq_refl Hne).
    apply nth_In. pose proof (registry_code_range s) as Hr.
    unfold OUTFIT_TYPE_SENTINEL in Hr. simpl. lia.
Qed.

Lemma registry_round_trip_witness :
  outfit_strToOutfitType (nth 12 outfit_typestring "") = 12 /\
  nth 17 outfit_typestring "" = "jammer" /\
  outfit_strToOutfitType "Bolt" = OUTFIT_TYPE_NULL.
Proof.
  split; [| split].
  - apply (proj1 registry_round_trip 12).
    cbv. split; [intros H; discriminate H | reflexivity].
  - apply (proj1 (proj2 registry_round_trip) "jammer" 17);
      [reflexivity | discriminate].
  - apply (proj2 (proj2 (proj2 (proj2 registry_round_trip)) "Bolt")).
    simpl. intuition discriminate.
Defined.

(** ** What outfit_parse keeps *)

Section ParseInvariants.

Context {libs : Collaborators}.

Lemma store_header {D : Type} (read : OutfitUnion -> cres D) (zero : D)
  (inj : D -> OutfitUnion) (run : D -> cres D) (temp t' : Outfit) :
  store read zero inj run temp = Val t' ->
  o_name t' = o_name temp /\ o_type t' = o_type temp /\
  o_properties t' = o_properties temp /\
  outfit_general t' = outfit_general temp.
Proof.
  unfold store.
  destruct (read (o_u temp)) as [d |].
  - destruct (run d); simpl; intros H; [| discriminate H].
    injection H as <-. repeat split.
  - destruct (run zero); simpl; intros H; [| discriminate H].
    injection H as <-. repeat split.
Qed.

Lemma general_keeps_header (cs : list xmlNode) :
  forall temp : Outfit,
    o_properties (xml_walk outfit_parse_general cs temp) = o_properties temp.
Proof.
  unfold xml_walk. induction cs as [| c cs IH]; intros temp; simpl.
  - reflexivity.
  - rewrite IH. unfold outfit_parse_general.
    repeat match goal with
           | |- context [xml_isNode ?n ?s] => destruct (xml_isNode n s); simpl
           end; reflexivity.
Qed.

(** The header after a "specific" section. *)
Lemma specific_header (node : xmlNode) (temp t' : Outfit) :
  outfit_parse_specific node temp = Val t' ->
  exists prop : string,
    xml_nodeProp node "type" = Some prop /\
    o_name t' = o_name temp /\
    o_type t' = outfit_strToOutfitType prop /\
    o_properties t'
    = (if match xml_nodeProp node "secondary" with
          | Some prop2 => negb (Z.eqb (atoi prop2) 0)
          | None => false
          end
       then Z.lor (o_properties temp) OUTFIT_PROP_WEAP_SECONDARY
       else o_properties temp) /\
    outfit_general t' = outfit_general temp.
Proof.
  unfold outfit_parse_specific.
  destruct (xml_nodeProp node "type") as [prop |]; [| discriminate].
  set (temp2 := match xml_nodeProp node "secondary" with
                | Some prop2 =>
                    if negb (Z.eqb (atoi prop2) 0)
                    then outfit_setProp
                           (with_type temp (outfit_strToOutfitType prop))
                           OUTFIT_PROP_WEAP_SECONDARY
                    else with_type temp (outfit_strToOutfitType prop)
                | None => with_type temp (outfit_strToOutfitType prop)
                end).
  assert (H2 : o_name temp2 = o_name temp /\
               o_type temp2 = outfit_strToOutfitType prop /\
               o_properties temp2
               = (if match xml_nodeProp node "secondary" with
                     | Some prop2 => negb (Z.eqb (atoi prop2) 0)
                     | None => false
                     end
                  then Z.lor (o_properties temp) OUTFIT_PROP_WEAP_SECONDARY
                  else o_properties temp) /\
               outfit_general temp2 = outfit_general temp).
  { subst temp2.
    destruct (xml_nodeProp node "secondary") as [p2 |];
      [destruct (negb (Z.eqb (atoi p2) 0)) |]; repeat split. }
  destruct H2 as (Hn & Ht & Hp & Hg).
  intros H. exists prop. split; [reflexivity |].
  assert (Hh : o_name t' = o_name temp2 /\ o_type t' = o_type temp2 /\
               o_properties t' = o_properties temp2 /\
               outfit_general t' = outfit_general temp2).
  { repeat match type of H with
           | (if ?b then _ else _) = Val _ => destruct b
           end;
      try (injection H as <-; repeat split);
      unfold outfit_parseSBolt, outfit_parseSBeam, outfit_parseSLauncher,
        outfit_parseSAmmo, outfit_parseSMod, outfit_parseSAfterburner,
        outfit_parseSMap, outfit_parseSJammer in H;
      apply store_header in H; exact H. }
  destruct Hh as (Hn' & Ht' & Hp' & Hg').
  repeat split; congruence.
Qed.

Lemma lor_secondary_twice (p : Z) :
  Z.lor (Z.lor p OUTFIT_PROP_WEAP_SECONDARY) OUTFIT_PROP_WEAP_SECONDARY
  = Z.lor p OUTFIT_PROP_WEAP_SECONDARY.
Proof. rewrite <- Z.lor_assoc. reflexivity. Qed.

Lemma parse_walk_header (cs : list xmlNode) :
  forall temp t' : Outfit,
    xml_walkM outfit_parse_node cs temp = Val t' ->
    o_name t' = o_name temp /\
    (0 <= o_type temp < OUTFIT_TYPE_SENTINEL ->
     0 <= o_type t' < OUTFIT_TYPE_SENTINEL) /\
    o_properties t'
    = (if existsb asks_secondary cs
       then Z.lor (o_properties temp) OUTFIT_PROP_WEAP_SECONDARY
       else o_properties temp).
Proof.
  induction cs as [| c cs IH]; intros temp t' H; simpl in H.
  - injection H as <-. simpl. auto.
  - destruct (outfit_parse_node c temp) as [t1 |] eqn:Hc; [| discriminate H].
    simpl in H. destruct (IH t1 t' H) as (Hn & Ht & Hp).
    unfold outfit_parse_node in Hc. simpl existsb. unfold asks_secondary at 1.
    destruct (xml_isNode c "general") eqn:Hg.
    + rewrite (xml_isNode_excl c "general" "specific" Hg) by discriminate.
      injection Hc as <-. simpl.
      destruct (general_keeps_type (x_children c) temp) as (Hty & _ & Hnm).
      rewrite Hty, Hnm in *.
      rewrite general_keeps_header in Hp. auto.
    + destruct (xml_isNode c "specific") eqn:Hs.
      * apply specific_header in Hc.
        destruct Hc as (prop & _ & Hn1 & Ht1 & Hp1 & _). simpl.
        split; [congruence |]. split.
        -- intros _. apply Ht. rewrite Ht1. apply registry_code_range.
        -- rewrite Hp, Hp1.
           destruct (match xml_nodeProp c "secondary" with
                     | Some prop2 => negb (Z.eqb (atoi prop2) 0)
                     | None => false
                     end); simpl.
           ++ destruct (existsb asks_secondary cs);
                [apply lor_secondary_twice | reflexivity].
           ++ reflexivity.
      * injection Hc as <-. simpl. auto.
Qed.

(** X5.  A record that [outfit_parse] returns has the name attribute of its
    element as name (NULL when there is none), whatever the sections hold,
    and a valid type code, so that [outfit_getType] has a display name for
    it. *)
Theorem outfit_parse_name_and_type (parent : xmlNode) (o : Outfit) :
  outfit_parse parent = Val o ->
  o_name o = xml_nodeProp parent "name" /\
  0 <= o_type o < OUTFIT_TYPE_SENTINEL /\
  exists s : string, outfit_getType o = Val s /\ In s outfit_typename.
Proof.
  unfold outfit_parse. intros H.
  apply parse_walk_header in H. destruct H as (Hn & Ht & _).
  simpl in Hn, Ht.
  assert (Hr : 0 <= o_type o < OUTFIT_TYPE_SENTINEL).
  { apply Ht. unfold OUTFIT_TYPE_NULL, OUTFIT_TYPE_SENTINEL. lia. }
  split; [exact Hn | split; [exact Hr |]].
  unfold outfit_getType.
  destruct (Z.ltb (o_type o) 0) eqn:Hlt; [apply Z.ltb_lt in Hlt; lia |].
  destruct (nth_error outfit_typename (Z.to_nat (o_type o))) as [s |] eqn:He.
  - exists s. split; [reflexivity |]. eapply nth_error_In. exact He.
  - exfalso. apply nth_error_None in He. simpl in He.
    unfold OUTFIT_TYPE_SENTINEL in Hr. lia.
Qed.

(** X6.  The secondary-weapon bit of a parsed record is set exactly when
    some "specific" section of the element has a [secondary] attribute that
    [atoi] reads as non-zero; a later section with [secondary="0"] does not
    clear it, and no other bit is ever set. *)
Theorem outfit_parse_secondary (parent : xmlNode) (o : Outfit) :
  outfit_parse parent = Val o ->
  o_properties o
  = (if existsb asks_secondary (x_children parent)
     then OUTFIT_PROP_WEAP_SECONDARY else 0).
Proof.
  unfold outfit_parse. intros H.
  apply parse_walk_header in H. destruct H as (_ & _ & Hp).
  rewrite Hp. simpl. destruct (existsb asks_secondary (x_children parent));
    reflexivity.
Qed.

End ParseInvariants.

Lemma outfit_parse_name_and_type_witness :
  o_name sample_jammer_outfit = Some "Jammer Mk1" /\
  0 <= o_type sample_jammer_outfit < OUTFIT_TYPE_SENTINEL /\
  exists s : string,
    outfit_getType sample_jammer_outfit = Val s /\ In s outfit_typename.
Proof.
  exact (outfit_parse_name_and_type sample_jammer sample_jammer_outfit
           eq_refl).
Defined.

Lemma outfit_parse_secondary_witness :
  exists o : Outfit,
    outfit_parse sample_secondary = Val o /\
    o_properties o = OUTFIT_PROP_WEAP_SECONDARY.
Proof.
  eexists. split; [reflexivity |].
  exact (outfit_parse_secondary sample_secondary _ eq_refl).
Defined.

(** ** The payload of a parsed record and the accessors *)

Section ParsePayload.

Context {libs : Collaborators}.

Lemma no_specific_walk (cs : list xmlNode) :
  Forall (fun c => xml_isNode c "specific" = false) cs ->
  forall temp : Outfit,
    exists t' : Outfit,
      xml_walkM outfit_parse_node cs temp = Val t' /\
      o_type t' = o_type temp /\ o_u t' = o_u temp.
Proof.
  induction 1 as [| c cs Hc Hcs IH]; intros temp; simpl.
  - eauto.
  - unfold outfit_parse_node at 1. rewrite Hc.
    destruct (xml_isNode c "general"); simpl.
    + destruct (general_keeps_type (x_children c) temp) as (Ht & Hu & _).
      destruct (IH (xml_walk outfit_parse_general (x_children c) temp))
        as (t' & Hw & Ht' & Hu').
      exists t'. rewrite Hw. repeat split; congruence.
    + apply IH.
Qed.

Lemma specific_fits (node : xmlNode) (temp t' : Outfit) :
  o_u temp = U_zero ->
  outfit_parse_specific node temp = Val t' ->
  payload_fits t'.
Proof.
  intros Hu. unfold outfit_parse_specific.
  destruct (xml_nodeProp node "type") as [prop |]; [| discriminate].
  set (temp2 := match xml_nodeProp node "secondary" with
                | Some prop2 =>
                    if negb (Z.eqb (atoi prop2) 0)
                    then outfit_setProp
                           (with_type temp (outfit_strToOutfitType prop))
                           OUTFIT_PROP_WEAP_SECONDARY
                    else with_type temp (outfit_strToOutfitType prop)
                | None => with_type temp (outfit_strToOutfitType prop)
                end).
  assert (Hu2 : o_u temp2 = U_zero).
  { subst temp2.
    destruct (xml_nodeProp node "secondary") as [p2 |];
      [destruct (negb (Z.eqb (atoi p2) 0)) |]; exact Hu. }
  clearbody temp2.
  destruct temp2 as [nm mx tc ms pr ds gs ty pp un]. simpl in Hu2. subst un.
  unfold payload_fits, outfit_parseSBolt, outfit_parseSBeam,
    outfit_parseSLauncher, outfit_parseSAmmo, outfit_parseSMod,
    outfit_parseSAfterburner, outfit_parseSMap, outfit_parseSJammer, store.
  unfold_preds. simpl o_type. simpl o_u. cbv beta iota.
  intros H.
  repeat match type of H with
         | (if ?b then _ else _) = Val _ =>
             let E := fresh "E" in destruct b eqn:E
         end;
    simpl in H;
    repeat match type of H with
           | cbind ?m _ = Val _ => destruct m; simpl in H
           end;
    try discriminate H; injection H as <-; simpl;
    repeat match goal with
           | E : ?b = _ |- context [?b] => rewrite E
           end; eauto.
Qed.

Lemma at_most_one_specific (cs : list xmlNode) :
  (length (filter (fun c => xml_isNode c "specific") cs) <= 1)%nat ->
  Forall (fun c => xml_isNode c "specific" = false) cs \/
  exists (pre post : list xmlNode) (spec : xmlNode),
    cs = (pre ++ spec :: post)%list /\
    xml_isNode spec "specific" = true /\
    Forall (fun c => xml_isNode c "specific" = false) pre /\
    Forall (fun c => xml_isNode c "specific" = false) post.
Proof.
  induction cs as [| c cs IH]; simpl; intros H.
  - left. constructor.
  - destruct (xml_isNode c "specific") eqn:Hc.
    + right. exists [], cs, c. simpl in H.
      repeat split; auto.
      assert (Hz : length (filter (fun c => xml_isNode c "specific") cs)
                   = 0%nat) by lia.
      apply length_zero_iff_nil in Hz.
      rewrite Forall_forall. intros x Hx.
      destruct (xml_isNode x "specific") eqn:Hxs; [| reflexivity].
      assert (Hin : In x (filter (fun c => xml_isNode c "specific") cs)).
      { apply filter_In. auto. }
      rewrite Hz in Hin. destruct Hin.
    + destruct (IH H) as [Hall | (pre & post & spec & -> & Hs & Hpre & Hpost)].
      * left. constructor; assumption.
      * right. exists (c :: pre), post, spec. repeat split; auto.
Qed.

Lemma parse_fits (parent : xmlNode) (o : Outfit) :
  (length (filter (fun c => xml_isNode c "specific") (x_children parent))
   <= 1)%nat ->
  outfit_parse parent = Val o ->
  payload_fits o.
Proof.
  intros Hone. unfold outfit_parse.
  destruct (at_most_one_specific _ Hone)
    as [Hall | (pre & post & spec & Hcs & Hs & Hpre & Hpost)].
  - destruct (no_specific_walk _ Hall
                (outfit_calloc (xml_nodeProp parent "name")))
      as (t' & Hw & Ht & Hu).
    rewrite Hw. intros H. injection H as <-.
    unfold payload_fits. rewrite Ht, Hu. reflexivity.
  - rewrite Hcs, walkM_app.
    destruct (no_specific_walk _ Hpre
                (outfit_calloc (xml_nodeProp parent "name")))
      as (t1 & Hw1 & Ht1 & Hu1).
    rewrite Hw1. simpl.
    unfold outfit_parse_node at 1.
    rewrite (xml_isNode_excl spec "specific" "general" Hs) by discriminate.
    rewrite Hs.
    destruct (outfit_parse_specific spec t1) as [t2 |] eqn:Hsp;
      [| discriminate].
    simpl. pose proof (specific_fits spec t1 t2 Hu1 Hsp) as Hfit.
    destruct (no_specific_walk _ Hpost t2) as (t3 & Hw3 & Ht3 & Hu3).
    rewrite Hw3. intros H. injection H as <-.
    unfold payload_fits in *. unfold_preds. rewrite Ht3, Hu3. exact Hfit.
Qed.

End ParsePayload.

(** X7.  In a record parsed from an element with at most one "specific"
    section the union holds the member that the type selects: the bolt
    member for the bolt types, the beam member for the beam types, and so
    on, and nothing (the zeroes of the allocation) for the null type. *)
Theorem outfit_parse_payload {libs : Collaborators} (parent : xmlNode)
  (o : Outfit) :
  (length (filter (fun c => xml_isNode c "specific") (x_children parent))
   <= 1)%nat ->
  outfit_parse parent = Val o ->
  payload_fits o /\
  (o_type o = OUTFIT_TYPE_NULL -> o_u o = U_zero) /\
  (outfit_isBolt o = true -> exists b, o_u o = U_blt b) /\
  (outfit_isBeam o = true -> exists b, o_u o = U_bem b) /\
  (outfit_isLauncher o = true -> exists l, o_u o = U_lau l) /\
  (outfit_isAmmo o = true -> exists a, o_u o = U_amm a).
Proof.
  intros Hone Hp. pose proof (parse_fits parent o Hone Hp) as Hfit.
  split; [exact Hfit |].
  assert (Hr : 0 <= o_type o < OUTFIT_TYPE_SENTINEL).
  { unfold outfit_parse in Hp. apply parse_walk_header in Hp.
    destruct Hp as (_ & Ht & _). apply Ht.
    simpl. unfold OUTFIT_TYPE_NULL, OUTFIT_TYPE_SENTINEL. lia. }
  revert Hfit. destruct o as [nm mx tc ms pr ds gs ty pp un].
  unfold payload_fits. unfold_preds. simpl in *.
  apply valid_type_cases in Hr. simpl in Hr.
  repeat (destruct Hr as [Hr | Hr];
          [subst ty; simpl; intros Hfit;
           repeat split; intros H; try discriminate H; exact Hfit |]).
  destruct Hr.
Qed.

Lemma outfit_parse_payload_witness :
  payload_fits sample_beam_outfit /\
  (o_type sample_beam_outfit = OUTFIT_TYPE_NULL ->
   o_u sample_beam_outfit = U_zero) /\
  (outfit_isBolt sample_beam_outfit = true ->
   exists b, o_u sample_beam_outfit = U_blt b) /\
  (outfit_isBeam sample_beam_outfit = true ->
   exists b, o_u sample_beam_outfit = U_bem b) /\
  (outfit_isLauncher sample_beam_outfit = true ->
   exists l, o_u sample_beam_outfit = U_lau l) /\
  (outfit_isAmmo sample_beam_outfit = true ->
   exists a, o_u sample_beam_outfit = U_amm a).
Proof.
  refine (outfit_parse_payload sample_beam sample_beam_outfit _ eq_refl).
  simpl. lia.
Defined.

Lemma fit_accessors (o : Outfit) :
  payload_fits o ->
  (exists v, outfit_damage o = Val v) /\
  (exists v, outfit_damageType o = Val v) /\
  (exists v, outfit_delay o = Val v) /\
  (exists v, outfit_energy o = Val v) /\
  (exists v, outfit_range o = Val v) /\
  (o_type o <> OUTFIT_TYPE_TURRET_BEAM ->
   (exists v, outfit_gfx o = Val v) /\
   (exists v, outfit_spfx o = Val v) /\
   (exists v, outfit_speed o = Val v)).
Proof.
  destruct o as [nm mx tc ms pr ds gs ty pp un].
  unfold payload_fits, outfit_damage, outfit_damageType, outfit_delay,
    outfit_energy, outfit_range, outfit_gfx, outfit_spfx, outfit_speed.
  unfold_preds. simpl o_type. simpl o_u.
  destruct (Z_le_dec 0 ty) as [Hlo | Hlo];
    [destruct (Z_lt_dec ty OUTFIT_TYPE_SENTINEL) as [Hhi | Hhi] |].
  - assert (H : 0 <= ty < OUTFIT_TYPE_SENTINEL) by lia.
    apply valid_type_cases in H. simpl in H.
    repeat (destruct H as [H | H];
            [subst ty; simpl; intros Hfit;
             match type of Hfit with
             | ex _ => destruct Hfit as [x Hfit]
             | _ => idtac
             end; subst un; simpl;
             repeat split; eauto;
             exfalso;
             match goal with
             | Hn : _ <> _ |- _ => apply Hn; reflexivity
             end |]).
    destruct H.
  - tests_fail. simpl. intros ->. simpl. repeat split; eauto.
  - tests_fail. simpl. intros ->. simpl. repeat split; eauto.
Qed.

(** X8.  On a record whose union holds the member of its type, no accessor
    reads another member: damage, damage type, delay, energy and range are
    defined for every type, and graphic, particle effect and speed for
    every type but the turret beam. *)
Theorem accessors_defined (o : Outfit) :
  payload_fits o ->
  (exists v, outfit_damage o = Val v) /\
  (exists v, outfit_damageType o = Val v) /\
  (exists v, outfit_delay o = Val v) /\
  (exists v, outfit_energy o = Val v) /\
  (exists v, outfit_range o = Val v) /\
  (o_type o <> OUTFIT_TYPE_TURRET_BEAM ->
   (exists v, outfit_gfx o = Val v) /\
   (exists v, outfit_spfx o = Val v) /\
   (exists v, outfit_speed o = Val v)).
Proof. exact (fit_accessors o). Qed.

Lemma accessors_defined_witness :
  (exists v, outfit_damage sample_turret_beam_outfit = Val v) /\
  (exists v, outfit_range sample_turret_beam_outfit = Val v) /\
  (exists v, outfit_gfx sample_ammo = Val v).
Proof.
  assert (Hfit : payload_fits sample_turret_beam_outfit)
    by (cbv; eexists; reflexivity).
  assert (Hfit' : payload_fits sample_ammo) by (cbv; eexists; reflexivity).
  split; [| split].
  - exact (proj1 (accessors_defined sample_turret_beam_outfit Hfit)).
  - exact (proj1 (proj2 (proj2 (proj2 (proj2
             (accessors_defined sample_turret_beam_outfit Hfit)))))).
  - refine (proj1 (proj2 (proj2 (proj2 (proj2 (proj2
              (accessors_defined sample_ammo Hfit'))))) _)).
    discriminate.
Defined.

(** ** outfit_free *)

Lemma fits_launcher (o : Outfit) :
  payload_fits o -> outfit_isLauncher o = true ->
  exists l, o_u o = U_lau l.
Proof.
  destruct o as [nm mx tc ms pr ds gs ty pp un].
  unfold payload_fits. unfold_preds. simpl o_type. simpl o_u.
  destruct (Z_le_dec 0 ty) as [Hlo | Hlo];
    [destruct (Z_lt_dec ty OUTFIT_TYPE_SENTINEL) as [Hhi | Hhi] |].
  - assert (H : 0 <= ty < OUTFIT_TYPE_SENTINEL) by lia.
    apply valid_type_cases in H. simpl in H.
    repeat (destruct H as [H | H];
            [subst ty; simpl; intros Hfit Hl;
             first [discriminate Hl | exact Hfit] |]).
    destruct H.
  - tests_fail. simpl. intros _ Hl. discriminate Hl.
  - tests_fail. simpl. intros _ Hl. discriminate Hl.
Qed.

Lemma free_entry_defined (o : Outfit) :
  payload_fits o -> o_type o <> OUTFIT_TYPE_TURRET_BEAM ->
  exists pre : list free_event,
    outfit_free_entry o
    = Val (pre
           ++ match o_description o with
              | Some d => [FreeString d]
              | None => []
              end
           ++ match o_gfx_store o with
              | Some t => [FreeTexture t]
              | None => []
              end
           ++ match o_name o with
              | Some n => [FreeString n]
              | None => []
              end)%list /\
    Forall (fun e => e <> FreeStack) pre.
Proof.
  intros Hfit Hn.
  destruct (fit_accessors o Hfit) as (_ & _ & _ & _ & _ & Hg).
  destruct (Hg Hn) as ((g & Hgfx) & _).
  unfold outfit_free_entry. rewrite Hgfx. simpl.
  assert (Hammo : exists ea,
             (if outfit_isLauncher o
              then l <- u_lau (o_u o) ;;
                   Val match lau_ammo l with
                       | Some a => [FreeString a]
                       | None => []
                       end
              else Val []) = Val ea /\
             Forall (fun e => e <> FreeStack) ea).
  { destruct (outfit_isLauncher o) eqn:Hl.
    - destruct (fits_launcher o Hfit Hl) as (l & Hu). rewrite Hu. simpl.
      eexists. split; [reflexivity |].
      destruct (lau_ammo l); repeat constructor; discriminate.
    - eexists. split; [reflexivity | constructor]. }
  destruct Hammo as (ea & Hea & Hfa). rewrite Hea.
  destruct g as [t |]; simpl.
  - exists (FreeTexture t :: ea). split.
    + reflexivity.
    + constructor; [discriminate | exact Hfa].
  - exists ea. split; [reflexivity | exact Hfa].
Qed.

(** X10.  On a catalog whose records hold the member of their type and
    that has no turret beam, [outfit_free] is defined; it releases the name,
    the description and the store graphic of every entry that has one, and
    the stack itself last and once. *)
Theorem outfit_free_releases (stack : outfit_stack_t) :
  Forall payload_fits stack ->
  Forall (fun o => o_type o <> OUTFIT_TYPE_TURRET_BEAM) stack ->
  exists es : list free_event,
    outfit_free stack = Val (es ++ [FreeStack])%list /\
    ~ In FreeStack es /\
    forall o, In o stack ->
      (forall n, o_name o = Some n -> In (FreeString n) es) /\
      (forall d, o_description o = Some d -> In (FreeString d) es) /\
      (forall t, o_gfx_store o = Some t -> In (FreeTexture t) es).
Proof.
  intros Hfit Hnt. unfold outfit_free.
  assert (H : exists es,
             outfit_free_entries stack = Val es /\
             ~ In FreeStack es /\
             forall o, In o stack ->
               (forall n, o_name o = Some n -> In (FreeString n) es) /\
               (forall d, o_description o = Some d ->
                          In (FreeString d) es) /\
               (forall t, o_gfx_store o = Some t -> In (FreeTexture t) es)).
  { induction stack as [| o rest IH].
    - exists []. simpl.
      split; [reflexivity | split; [intros [] | intros o []]].
    - inversion Hfit as [| ? ? Hfo Hfr]; subst.
      inversion Hnt as [| ? ? Hno Hnr]; subst.
      destruct (IH Hfr Hnr) as (es' & He' & Hns' & Hrel').
      destruct (free_entry_defined o Hfo Hno) as (pre & Hpre & Hfp).
      simpl. rewrite Hpre, He'. simpl.
      eexists. split; [reflexivity |]. split.
      + rewrite Forall_forall in Hfp. intros Hin.
        apply in_app_or in Hin. destruct Hin as [Hin | Hin];
          [| exact (Hns' Hin)].
        apply in_app_or in Hin. destruct Hin as [Hin | Hin].
        * apply (Hfp _ Hin). reflexivity.
        * destruct (o_description o), (o_gfx_store o), (o_name o);
            simpl in Hin; intuition discriminate.
      + intros x [<- | Hin].
        * repeat split; intros v Hv; rewrite Hv; rewrite !in_app_iff;
            simpl; auto 8.
        * destruct (Hrel' x Hin) as (H1 & H2 & H3).
          repeat split; intros v Hv; apply in_or_app; right; auto. }
  destruct H as (es & He & Hns & Hrel).
  exists es. rewrite He. simpl. auto.
Qed.

Lemma sample_stack_fits : Forall payload_fits sample_stack.
Proof.
  repeat constructor; cbv; eauto.
Defined.

Lemma outfit_free_releases_witness :
  exists es : list free_event,
    outfit_free sample_stack = Val (es ++ [FreeStack])%list /\
    ~ In FreeStack es /\
    forall o, In o sample_stack ->
      (forall n, o_name o = Some n -> In (FreeString n) es) /\
      (forall d, o_description o = Some d -> In (FreeString d) es) /\
      (forall t, o_gfx_store o = Some t -> In (FreeTexture t) es).
Proof.
  refine (outfit_free_releases sample_stack sample_stack_fits _).
  repeat constructor; discriminate.
Defined.

(** ** outfit_load and outfit_get together *)

Lemma Forall2_nth_left {A B : Type} (R : A -> B -> Prop) (l : list A)
  (l' : list B) :
  Forall2 R l l' ->
  forall (k : nat) (a : A),
    nth_error l k = Some a -> exists b, nth_error l' k = Some b /\ R a b.
Proof.
  induction 1 as [| x y l l' Hxy Hl IH]; intros k a Hk.
  - destruct k; discriminate Hk.
  - destruct k as [| k]; simpl in *.
    + injection Hk as <-. eauto.
    + apply IH. exact Hk.
Qed.

Lemma Forall2_nth_right {A B : Type} (R : A -> B -> Prop) (l : list A)
  (l' : list B) :
  Forall2 R l l' ->
  forall (k : nat) (b : B),
    nth_error l' k = Some b -> exists a, nth_error l k = Some a /\ R a b.
Proof.
  induction 1 as [| x y l l' Hxy Hl IH]; intros k b Hk.
  - destruct k; discriminate Hk.
  - destruct k as [| k]; simpl in *.
    + injection Hk as <-. eauto.
    + apply IH. exact Hk.
Qed.

Section LoadAndGet.

Context {libs : Collaborators}.

Lemma parse_keeps_name (e : xmlNode) (o : Outfit) :
  outfit_parse e = Val o -> o_name o = element_name e.
Proof.
  unfold outfit_parse. intros H. apply parse_walk_header in H.
  destruct H as (Hn & _). exact Hn.
Qed.

Lemma load_walk_inv (nodes : list xmlNode) :
  forall stack stack' : outfit_stack_t,
    xml_walkM outfit_load_node nodes stack = Val stack' ->
    exists outs : list Outfit,
      stack' = (stack ++ outs)%list /\ parsed_entries nodes outs.
Proof.
  unfold parsed_entries.
  induction nodes as [| n nodes IH]; intros stack stack' H; simpl in H.
  - injection H as <-. exists []. rewrite app_nil_r. split; constructor.
  - unfold outfit_load_node at 1 in H. simpl filter.
    destruct (xml_isNode n XML_OUTFIT_TAG) eqn:Hn.
    + destruct (outfit_parse n) as [o |] eqn:Ho; [| discriminate H].
      simpl in H. destruct (IH _ _ H) as (outs & -> & Hf).
      exists (o :: outs). rewrite <- app_assoc. split; [reflexivity |].
      constructor; assumption.
    + simpl in H. apply IH. exact H.
Qed.

Lemma load_inv (doc : xmlDoc) (stack0 stack : outfit_stack_t) (rc : Z) :
  outfit_load doc stack0 = Val (rc, stack) ->
  (rc = -1 /\ stack = stack0) \/
  (rc = 0 /\
   exists (root : xmlNode) (others : list xmlNode) (outs : list Outfit),
     doc_children doc = root :: others /\
     xml_isNode root XML_OUTFIT_ID = true /\
     x_children root <> [] /\
     stack = (stack0 ++ outs)%list /\
     Forall2 (fun e o => outfit_parse e = Val o) (outfit_elements root) outs).
Proof.
  unfold outfit_load.
  destruct (doc_children doc) as [| root others] eqn:Hd.
  - intros H. injection H as <- <-. left. auto.
  - destruct (xml_isNode root XML_OUTFIT_ID) eqn:Hr; cbn [negb].
    + destruct (x_children root) as [| c cs] eqn:Hc.
      * intros H. injection H as <- <-. left. auto.
      * destruct (xml_walkM outfit_load_node (c :: cs) stack0)
          as [st |] eqn:Hw; simpl; intros H; [| discriminate H].
        injection H as <- <-. right. split; [reflexivity |].
        destruct (load_walk_inv _ _ _ Hw) as (outs & -> & Hf).
        exists root, others, outs. unfold outfit_elements. rewrite Hc.
        repeat split; auto. discriminate.
    + intros H. injection H as <- <-. left. auto.
Qed.

Lemma parsed_names (es : list xmlNode) (outs : list Outfit) :
  Forall2 (fun e o => outfit_parse e = Val o) es outs ->
  map o_name outs = map element_name es.
Proof.
  induction 1 as [| e o es outs He Hes IH]; simpl.
  - reflexivity.
  - rewrite IH, (parse_keeps_name e o He). reflexivity.
Qed.

(** X11.  [outfit_load] answers 0 or -1 only.  On -1 the stack is as it
    was.  On 0 the root is "Outfits" with at least one child, the stack is
    the stack before followed by one record per "outfit" element of the
    root, in document order, each the parse of its element and carrying its
    name attribute; what the stack held is neither dropped nor reordered. *)
Theorem outfit_load_result (doc : xmlDoc) (stack0 stack : outfit_stack_t)
  (rc : Z) :
  outfit_load doc stack0 = Val (rc, stack) ->
  (rc = -1 /\ stack = stack0) \/
  (rc = 0 /\
   exists (root : xmlNode) (others : list xmlNode) (outs : list Outfit),
     doc_children doc = root :: others /\
     xml_isNode root XML_OUTFIT_ID = true /\
     x_children root <> [] /\
     stack = (stack0 ++ outs)%list /\
     Forall2 (fun e o => outfit_parse e = Val o) (outfit_elements root) outs /\
     map o_name outs = map element_name (outfit_elements root) /\
     length stack = (length stack0 + length (outfit_elements root))%nat).
Proof.
  intros H. destruct (load_inv doc stack0 stack rc H)
    as [Hfail | (Hrc & root & others & outs & Hd & Hr & Hc & Hs & Hf)].
  - left. exact Hfail.
  - right. split; [exact Hrc |]. exists root, others, outs.
    repeat split; auto.
    + apply parsed_names. exact Hf.
    + rewrite Hs, length_app. f_equal. symmetry.
      eapply Forall2_length. exact Hf.
Qed.

Lemma get_first_named (stack : outfit_stack_t) (n : string) :
  Forall named stack ->
  (forall (k : nat) (o : Outfit),
      nth_error stack k = Some o -> o_name o = Some n ->
      (forall j o', (j < k)%nat -> nth_error stack j = Some o' ->
                    o_name o' <> Some n) ->
      outfit_get n stack = Val (Some k, [])) /\
  ((forall o, In o stack -> o_name o <> Some n) ->
   outfit_get n stack = Val (None, [W_outfit_not_found n])).
Proof.
  intros Hn. unfold outfit_get.
  destruct (outfit_get_from_defined n stack Hn 0%nat) as (r & Hr).
  pose proof (outfit_get_from_sound n stack 0%nat r Hr) as Hok.
  rewrite Hr. destruct r as [[i |] log]; simpl in Hok.
  - destruct Hok as (-> & k' & o1 & -> & Hk' & Hn1 & Hfirst). simpl. split.
    + intros k o Hk Hno Hbefore.
      destruct (Nat.lt_trichotomy k k') as [Hlt | [-> | Hgt]].
      * elim (Hfirst k o Hlt Hk). exact Hno.
      * reflexivity.
      * elim (Hbefore k' o1 Hgt Hk'). exact Hn1.
    + intros Hnone. elim (Hnone o1); [| exact Hn1].
      eapply nth_error_In. exact Hk'.
  - destruct Hok as (-> & Hnone). split; [| reflexivity].
    intros k o Hk Hno _. elim (Hnone o); [| exact Hno].
    eapply nth_error_In. exact Hk.
Qed.

(** X12.  After a successful [outfit_load] into an empty catalog of a
    document whose "outfit" elements all have a name attribute,
    [outfit_get] on the name of an element returns the index of the first
    element with that name, at which the catalog holds the parse of that
    element; on a name that no element has it warns and returns NULL. *)
Theorem outfit_load_then_get (doc : xmlDoc) (root : xmlNode)
  (others : list xmlNode) (stack : outfit_stack_t) :
  doc_children doc = root :: others ->
  outfit_load doc [] = Val (0, stack) ->
  Forall (fun e => element_name e <> None) (outfit_elements root) ->
  (forall (k : nat) (e : xmlNode) (n : string),
      nth_error (outfit_elements root) k = Some e ->
      element_name e = Some n ->
      (forall j e', (j < k)%nat ->
                    nth_error (outfit_elements root) j = Some e' ->
                    element_name e' <> Some n) ->
      exists o : Outfit,
        outfit_get n stack = Val (Some k, []) /\
        nth_error stack k = Some o /\ outfit_parse e = Val o) /\
  (forall n : string,
      (forall e, In e (outfit_elements root) -> element_name e <> Some n) ->
      outfit_get n stack = Val (None, [W_outfit_not_found n])).
Proof.
  intros Hd Hload Hnames.
  destruct (load_inv doc [] stack 0 Hload)
    as [[Hrc _] | (_ & root' & others' & outs & Hd' & _ & _ & Hs & Hf)];
    [discriminate Hrc |].
  rewrite Hd in Hd'. injection Hd' as <- <-. simpl in Hs. subst outs.
  assert (Hnamed : Forall named stack).
  { rewrite Forall_forall in *. intros o Ho.
    apply In_nth_error in Ho. destruct Ho as (k & Hk).
    destruct (Forall2_nth_right _ _ _ Hf k o Hk) as (e & He & Hp).
    unfold named. rewrite (parse_keeps_name e o Hp).
    apply Hnames. eapply nth_error_In. exact He. }
  split.
  - intros k e n Hk Hen Hbefore.
    destruct (Forall2_nth_left _ _ _ Hf k e Hk) as (o & Ho & Hp).
    exists o. split; [| split; [exact Ho | exact Hp]].
    apply (proj1 (get_first_named stack n Hnamed) k o Ho).
    + rewrite (parse_keeps_name e o Hp). exact Hen.
    + intros j o' Hj Hoj.
      destruct (Forall2_nth_right _ _ _ Hf j o' Hoj) as (e' & He' & Hp').
      rewrite (parse_keeps_name e' o' Hp'). apply (Hbefore j e' Hj He').
  - intros n Hnone.
    apply (proj2 (get_first_named stack n Hnamed)).
    intros o Ho. apply In_nth_error in Ho. destruct Ho as (k & Hk).
    destruct (Forall2_nth_right _ _ _ Hf k o Hk) as (e & He & Hp).
    rewrite (parse_keeps_name e o Hp). apply Hnone.
    eapply nth_error_In. exact He.
Qed.

End LoadAndGet.

Lemma outfit_load_result_witness :
  (0 = -1 /\ sample_stack = []) \/
  (0 = 0 /\
   exists (root : xmlNode) (others : list xmlNode) (outs : list Outfit),
     doc_children sample_document = root :: others /\
     xml_isNode root XML_OUTFIT_ID = true /\
     x_children root <> [] /\
     sample_stack = ([] ++ outs)%list /\
     Forall2 (fun e o => outfit_parse e = Val o) (outfit_elements root) outs /\
     map o_name outs = map element_name (outfit_elements root) /\
     length sample_stack = (length (@nil Outfit)
                            + length (outfit_elements root))%nat).
Proof.
  exact (outfit_load_result sample_document [] sample_stack 0 eq_refl).
Defined.

Lemma outfit_load_then_get_witness :
  (exists o : Outfit,
      outfit_get "Ripper Beam" sample_stack = Val (Some 2%nat, []) /\
      nth_error sample_stack 2 = Some o /\
      outfit_parse sample_beam = Val o) /\
  outfit_get "Plasma Gun" sample_stack
  = Val (None, [W_outfit_not_found "Plasma Gun"]).
Proof.
  assert (Hn : Forall (fun e => element_name e <> None)
                 (outfit_elements
                    (xml_elem "Outfits" []
                       [sample_jammer; xml_text " "; sample_malformed;
                        sample_beam])))
    by (repeat constructor; discriminate).
  split.
  - refine (proj1 (outfit_load_then_get sample_document _ [] sample_stack
                     eq_refl eq_refl Hn)
                  2%nat sample_beam "Ripper Beam" eq_refl eq_refl _).
    intros j e' Hj He'.
    destruct j as [| [| j]]; [| | lia]; injection He' as <-; discriminate.
  - refine (proj2 (outfit_load_then_get sample_document _ [] sample_stack
                     eq_refl eq_refl Hn) "Plasma Gun" _).
    intros e [<- | [<- | [<- | []]]]; discriminate.
Defined.

(** ** More on outfit_getTech *)

Lemma getTech_entry_once (t0 : Z) (tech : list Z) (o : Outfit) :
  NoDup tech ->
  getTech_entry t0 tech o
  = if Z.leb (o_tech o) t0 then [o]
    else if existsb (Z.eqb (o_tech o)) tech then [o] else [].
Proof.
  intros Hnd. unfold getTech_entry.
  destruct (Z.leb (o_tech o) t0); [reflexivity |].
  induction Hnd as [| t tech Hnot Hnd IH]; simpl; [reflexivity |].
  rewrite (Z.eqb_sym (o_tech o) t).
  destruct (Z.eqb t (o_tech o)) eqn:He; simpl.
  - apply Z.eqb_eq in He. subst t.
    rewrite IH.
    destruct (existsb (Z.eqb (o_tech o)) tech) eqn:Hex; [| reflexivity].
    apply existsb_exists in Hex. destruct Hex as (x & Hx & Hxe).
    apply Z.eqb_eq in Hxe. subst x. contradiction.
  - exact IH.
Qed.

Lemma getTech_run (t0 : Z) (rest : list Z) (stack : outfit_stack_t) :
  NoDup (t0 :: rest) -> Forall named stack ->
  exists (names : list string) (sel : list Outfit),
    outfit_getTech (t0 :: rest) stack = Some (Val names) /\
    sort_inv (getTech_available t0 (t0 :: rest) stack) names
             OUTFIT_TYPE_SENTINEL sel.
Proof.
  intros Hnd Hnamed.
  assert (Ht0 : In t0 (t0 :: rest)) by (left; reflexivity).
  set (outfits := getTech_available t0 (t0 :: rest) stack).
  assert (Hon : Forall named outfits).
  { rewrite Forall_forall in *. intros o Ho.
    apply (getTech_available_in t0 _ stack o Ht0) in Ho.
    destruct Ho as [Ho _]. auto. }
  destruct (getTech_sort_spec outfits Hon (length outfits + 19) [] _ []
              (sort_inv_init outfits)) as (names & sel & Hrun & I).
  { unfold OUTFIT_TYPE_SENTINEL, OUTFIT_TYPE_NULL. simpl. lia. }
  exists names, sel. split; [| exact I].
  unfold outfit_getTech. fold outfits.
  pose proof (getTech_available_length t0 (t0 :: rest) stack Hnd) as Hlen.
  fold outfits in Hlen.
  destruct (Nat.ltb (length stack) (length outfits)) eqn:Hov.
  - apply Nat.ltb_lt in Hov. lia.
  - exact Hrun.
Qed.

(** X13.  The listing does not depend on the order of the special
    technologies: two technology arrays without repeated codes that have
    the same base technology and the same special technologies, in any
    order, give the same result on every catalog. *)
Theorem outfit_getTech_tech_order (t0 : Z) (rest rest' : list Z)
  (stack : outfit_stack_t) :
  NoDup (t0 :: rest) -> NoDup (t0 :: rest') ->
  (forall t, In t rest <-> In t rest') ->
  outfit_getTech (t0 :: rest) stack = outfit_getTech (t0 :: rest') stack.
Proof.
  intros Hnd Hnd' Hsame.
  assert (Hav : getTech_available t0 (t0 :: rest) stack
                = getTech_available t0 (t0 :: rest') stack).
  { unfold getTech_available. apply flat_map_ext. intros o.
    rewrite (getTech_entry_once t0 _ o Hnd),
      (getTech_entry_once t0 _ o Hnd').
    destruct (Z.leb (o_tech o) t0); [reflexivity |].
    assert (He : existsb (Z.eqb (o_tech o)) (t0 :: rest)
                 = existsb (Z.eqb (o_tech o)) (t0 :: rest')).
    { simpl. f_equal.
      destruct (existsb (Z.eqb (o_tech o)) rest) eqn:H1;
        destruct (existsb (Z.eqb (o_tech o)) rest') eqn:H2;
        try reflexivity; exfalso.
      - apply existsb_exists in H1. destruct H1 as (x & Hx & Hxe).
        apply Hsame in Hx.
        assert (existsb (Z.eqb (o_tech o)) rest' = true)
          by (apply existsb_exists; eauto).
        congruence.
      - apply existsb_exists in H2. destruct H2 as (x & Hx & Hxe).
        apply Hsame in Hx.
        assert (existsb (Z.eqb (o_tech o)) rest = true)
          by (apply existsb_exists; eauto).
        congruence. }
    rewrite He. reflexivity. }
  unfold outfit_getTech. rewrite Hav. reflexivity.
Qed.

Lemma outfit_getTech_tech_order_witness :
  outfit_getTech [1; 7; 9] sample_stack = outfit_getTech [1; 9; 7] sample_stack.
Proof.
  apply outfit_getTech_tech_order.
  - repeat constructor; simpl; intuition discriminate.
  - repeat constructor; simpl; intuition discriminate.
  - intros t. simpl. tauto.
Defined.

(** X14.  Every name that [outfit_getTech] lists resolves: on a catalog
    whose entries all have a name and with a technology array without
    repeated codes, [outfit_get] on a listed name returns, without a
    warning, an entry of the catalog carrying that name. *)
Theorem outfit_getTech_names_resolve (t0 : Z) (rest : list Z)
  (stack : outfit_stack_t) :
  NoDup (t0 :: rest) -> Forall named stack ->
  exists names : list string,
    outfit_getTech (t0 :: rest) stack = Some (Val names) /\
    forall n, In n names ->
      exists (i : nat) (o : Outfit),
        outfit_get n stack = Val (Some i, []) /\
        nth_error stack i = Some o /\ o_name o = Some n.
Proof.
  intros Hnd Hnamed.
  destruct (getTech_run t0 rest stack Hnd Hnamed) as (names & sel & Hrun & I).
  exists names. split; [exact Hrun |].
  intros n Hn.
  assert (Hs : exists s, In s stack /\ o_name s = Some n).
  { assert (Hin : In (Some n) (map o_name sel)).
    { rewrite (inv_names _ _ _ _ I). apply in_map. exact Hn. }
    apply in_map_iff in Hin. destruct Hin as (s & Hsn & Hsel).
    exists s. split; [| exact Hsn].
    pose proof (inv_in _ _ _ _ I) as Hall. rewrite Forall_forall in Hall.
    specialize (Hall s Hsel).
    apply getTech_available_in in Hall; [| left; reflexivity].
    destruct Hall as [Hall _]. exact Hall. }
  destruct Hs as (s & Hsin & Hsn).
  destruct (outfit_get_from_defined n stack Hnamed 0%nat) as (r & Hr).
  pose proof (outfit_get_from_sound n stack 0%nat r Hr) as Hok.
  unfold outfit_get. rewrite Hr.
  destruct r as [[i |] log]; simpl in Hok.
  - destruct Hok as (-> & k & o & -> & Hk & Hno & _).
    exists k, o. auto.
  - destruct Hok as (_ & Hnone). elim (Hnone s Hsin). exact Hsn.
Qed.

Lemma outfit_getTech_names_resolve_witness :
  exists names : list string,
    outfit_getTech [1] sample_weapons = Some (Val names) /\
    forall n, In n names ->
      exists (i : nat) (o : Outfit),
        outfit_get n sample_weapons = Val (Some i, []) /\
        nth_error sample_weapons i = Some o /\ o_name o = Some n.
Proof.
  refine (outfit_getTech_names_resolve 1 [] sample_weapons _
            sample_weapons_named).
  constructor; [intros [] | constructor].
Defined.

(** X15.  The pointer array of [outfit_getTech] has room for one pointer
    per catalog entry, but an entry above the base technology is stored once
    for every occurrence of its technology in the array: with a special
    technology given twice and a catalog of entries of that technology, the
    array is overrun. *)
Theorem outfit_getTech_overrun (t0 t : Z) (stack : outfit_stack_t) :
  stack <> [] -> t0 < t -> Forall (fun o => o_tech o = t) stack ->
  length (getTech_available t0 [t0; t; t] stack) = (2 * length stack)%nat /\
  outfit_getTech [t0; t; t] stack = Some Undefined.
Proof.
  intros Hne Hlt Hall.
  assert (Hlen : length (getTech_available t0 [t0; t; t] stack)
                 = (2 * length stack)%nat).
  { unfold getTech_available. induction Hall as [| o rest Ho Hrest IH].
    - reflexivity.
    - simpl flat_map. rewrite length_app.
      assert (He : getTech_entry t0 [t0; t; t] o = [o; o]).
      { unfold getTech_entry. rewrite Ho.
        destruct (Z.leb_spec t t0); [lia |]. simpl.
        destruct (Z.eqb_spec t0 t); [lia |]. rewrite Z.eqb_refl.
        reflexivity. }
      rewrite He. destruct rest as [| o' rest'].
      + reflexivity.
      + rewrite IH by discriminate. simpl. lia. }
  split; [exact Hlen |].
  unfold outfit_getTech. rewrite Hlen.
  destruct (Nat.ltb_spec (length stack) (2 * length stack)).
  - reflexivity.
  - destruct stack; [contradiction | simpl in *; lia].
Qed.

Lemma outfit_getTech_overrun_witness :
  length (getTech_available 0 [0; 1; 1] sample_weapons)
  = (2 * length sample_weapons)%nat /\
  outfit_getTech [0; 1; 1] sample_weapons = Some Undefined.
Proof.
  apply outfit_getTech_overrun.
  - discriminate.
  - reflexivity.
  - repeat constructor.
Defined.

(** ** Defaults and units of the variant parsers *)

Lemma xml_isNode_same (n : xmlNode) (a b : string) :
  xml_isNode n a = true -> xml_isNode n b = true -> a = b.
Proof.
  unfold xml_isNode. intros Ha Hb.
  apply andb_true_iff in Ha, Hb. destruct Ha as [_ Ha], Hb as [_ Hb].
  apply String.eqb_eq in Ha, Hb. congruence.
Qed.

(** Splits on the tag tests of a loop body; a node has one tag. *)
Ltac node_cases :=
  repeat match goal with
         | |- context [xml_isNode ?n ?s] =>
             destruct (xml_isNode n s) eqn:?; simpl
         end;
  try reflexivity;
  try (exfalso;
       match goal with
       | H1 : xml_isNode ?n ?a = true, H2 : xml_isNode ?n ?b = true |- _ =>
           let Hab := fresh in
           pose proof (xml_isNode_same n a b H1 H2) as Hab; discriminate Hab
       end).

Lemma fold_last_node {T : Type} (tag : string) (g : xmlNode -> T) (d : T)
  (cs : list xmlNode) :
  forall acc : option xmlNode,
    fold_left (fun a n => if xml_isNode n tag then g n else a) cs
              (match acc with Some n => g n | None => d end)
    = match fold_left (fun a n => if xml_isNode n tag then Some n else a)
                      cs acc with
      | Some n => g n
      | None => d
      end.
Proof.
  induction cs as [| c cs IH]; intros acc; simpl.
  - reflexivity.
  - destruct (xml_isNode c tag).
    + apply (IH (Some c)).
    + apply IH.
Qed.

Lemma walk_field {S T : Type} (body : xmlNode -> S -> S) (f : S -> T)
  (tag : string) (g : xmlNode -> T) :
  (forall n s, f (body n s) = if xml_isNode n tag then g n else f s) ->
  forall (cs : list xmlNode) (s : S),
    f (xml_walk body cs s)
    = match xml_lastNode tag cs with Some n => g n | None => f s end.
Proof.
  intros Hstep cs s. unfold xml_lastNode.
  rewrite <- (fold_last_node tag g (f s) cs None).
  unfold xml_walk. revert s.
  induction cs as [| c cs IH]; intros s; simpl.
  - reflexivity.
  - rewrite IH, Hstep. reflexivity.
Qed.

Lemma walkM_field {S T : Type} (body : xmlNode -> S -> cres S) (f : S -> T)
  (tag : string) (g : xmlNode -> T) :
  (forall n s s', body n s = Val s' ->
                  f s' = if xml_isNode n tag then g n else f s) ->
  forall (cs : list xmlNode) (s s' : S),
    xml_walkM body cs s = Val s' ->
    f s' = match xml_lastNode tag cs with Some n => g n | None => f s end.
Proof.
  intros Hstep cs s s' H. unfold xml_lastNode.
  rewrite <- (fold_last_node tag g (f s) cs None).
  revert s H.
  induction cs as [| c cs IH]; intros s H; simpl in *.
  - injection H as <-. reflexivity.
  - destruct (body c s) as [s1 |] eqn:Hb; [| discriminate H].
    simpl in H. rewrite (IH s1 H), (Hstep c s s1 Hb). reflexivity.
Qed.

Section ParserUnits.

Context {libs : Collaborators}.

Lemma field_float_last (tag : string) (cs : list xmlNode) :
  xml_fieldFloat tag cs
  = match xml_lastNode tag cs with
    | Some n => xml_getFloat n
    | None => 0%float
    end.
Proof.
  unfold xml_fieldFloat, xml_lastNode.
  exact (fold_last_node tag xml_getFloat 0%float cs None).
Qed.

(** Splits on the tag tests of a loop body that can fail. *)
Ltac nodeM_cases H :=
  repeat match type of H with
         | context [xml_isNode ?n ?s] =>
             destruct (xml_isNode n s) eqn:?; simpl in H
         end;
  repeat match type of H with
         | cbind ?m _ = Val _ =>
             destruct m as [[[? ?] ?] |]; simpl in H
         end;
  try discriminate H; injection H as <-; simpl;
  node_cases.

Lemma afb_node_thrust_perc (n : xmlNode) (a : OutfitAfterburnerData) :
  afb_thrust_perc (outfit_parseSAfterburner_node n a)
  = if xml_isNode n "thrust_perc"
    then PrimFloat.add 1 (PrimFloat.div (xml_getFloat n) 100)
    else afb_thrust_perc a.
Proof. unfold outfit_parseSAfterburner_node. node_cases. Qed.

Lemma afb_node_speed_perc (n : xmlNode) (a : OutfitAfterburnerData) :
  afb_speed_perc (outfit_parseSAfterburner_node n a)
  = if xml_isNode n "speed_perc"
    then PrimFloat.add 1 (PrimFloat.div (xml_getFloat n) 100)
    else afb_speed_perc a.
Proof. unfold outfit_parseSAfterburner_node. node_cases. Qed.

(** X16.  An afterburner parsed into a fresh record stores its thrust and
    speed multipliers as 1 + percentage/100, taken from the last
    "thrust_perc" and "speed_perc" elements; a multiplier whose element is
    absent is exactly 1. *)
Theorem outfit_parseSAfterburner_multipliers (temp : Outfit)
  (parent : xmlNode) :
  o_u temp = U_zero ->
  exists a : OutfitAfterburnerData,
    outfit_parseSAfterburner temp parent = Val (with_u temp (U_afb a)) /\
    afb_thrust_perc a
    = match xml_lastNode "thrust_perc" (x_children parent) with
      | Some n => PrimFloat.add 1 (PrimFloat.div (xml_getFloat n) 100)
      | None => 1%float
      end /\
    afb_speed_perc a
    = match xml_lastNode "speed_perc" (x_children parent) with
      | Some n => PrimFloat.add 1 (PrimFloat.div (xml_getFloat n) 100)
      | None => 1%float
      end.
Proof.
  intros Hu. unfold outfit_parseSAfterburner, store. rewrite Hu. simpl.
  eexists. split; [reflexivity |]. split.
  - rewrite (walk_field _ afb_thrust_perc "thrust_perc" _ afb_node_thrust_perc).
    reflexivity.
  - rewrite (walk_field _ afb_speed_perc "speed_perc" _ afb_node_speed_perc).
    reflexivity.
Qed.

Lemma mod_node_armour_regen (n : xmlNode) (m : OutfitModificationData) :
  mod_armour_regen (outfit_parseSMod_node n m)
  = if xml_isNode n "armour_regen" then PrimFloat.div (xml_getFloat n) 60
    else mod_armour_regen m.
Proof. unfold outfit_parseSMod_node. destruct m. node_cases. Qed.

Lemma mod_node_shield_regen (n : xmlNode) (m : OutfitModificationData) :
  mod_shield_regen (outfit_parseSMod_node n m)
  = if xml_isNode n "shield_regen" then PrimFloat.div (xml_getFloat n) 60
    else mod_shield_regen m.
Proof. unfold outfit_parseSMod_node. destruct m. node_cases. Qed.

Lemma mod_node_energy_regen (n : xmlNode) (m : OutfitModificationData) :
  mod_energy_regen (outfit_parseSMod_node n m)
  = if xml_isNode n "energy_regen" then PrimFloat.div (xml_getFloat n) 60
    else mod_energy_regen m.
Proof. unfold outfit_parseSMod_node. destruct m. node_cases. Qed.

Lemma mod_node_shield (n : xmlNode) (m : OutfitModificationData) :
  mod_shield (outfit_parseSMod_node n m)
  = if xml_isNode n "shield" then xml_getFloat n else mod_shield m.
Proof. unfold outfit_parseSMod_node. destruct m. node_cases. Qed.

(** X17.  A modification parsed into a fresh record stores its three
    regeneration rates per second: the number of the last "armour_regen",
    "shield_regen" and "energy_regen" element divided by 60, and 0 when the
    element is absent; a capacity such as "shield" is stored as it is
    written. *)
Theorem outfit_parseSMod_regen (temp : Outfit) (parent : xmlNode) :
  o_u temp = U_zero ->
  exists m : OutfitModificationData,
    outfit_parseSMod temp parent = Val (with_u temp (U_mod m)) /\
    mod_armour_regen m
    = match xml_lastNode "armour_regen" (x_children parent) with
      | Some n => PrimFloat.div (xml_getFloat n) 60
      | None => 0%float
      end /\
    mod_shield_regen m
    = match xml_lastNode "shield_regen" (x_children parent) with
      | Some n => PrimFloat.div (xml_getFloat n) 60
      | None => 0%float
      end /\
    mod_energy_regen m
    = match xml_lastNode "energy_regen" (x_children parent) with
      | Some n => PrimFloat.div (xml_getFloat n) 60
      | None => 0%float
      end /\
    mod_shield m = xml_fieldFloat "shield" (x_children parent).
Proof.
  intros Hu. unfold outfit_parseSMod, store. rewrite Hu. simpl.
  eexists. split; [reflexivity |]. repeat split.
  - rewrite (walk_field _ mod_armour_regen "armour_regen" _
               mod_node_armour_regen). reflexivity.
  - rewrite (walk_field _ mod_shield_regen "shield_regen" _
               mod_node_shield_regen). reflexivity.
  - rewrite (walk_field _ mod_energy_regen "energy_regen" _
               mod_node_energy_regen). reflexivity.
  - rewrite (walk_field _ mod_shield "shield" _ mod_node_shield).
    rewrite field_float_last. reflexivity.
Qed.

Lemma amm_node_resist (n : xmlNode) (a a' : OutfitAmmoData) :
  outfit_parseSAmmo_node n a = Val a' ->
  amm_resist a' = if xml_isNode n "resist" then xml_getFloat n
                  else amm_resist a.
Proof.
  unfold outfit_parseSAmmo_node. destruct a. intros H. nodeM_cases H.
Qed.

Lemma amm_node_speed (n : xmlNode) (a a' : OutfitAmmoData) :
  outfit_parseSAmmo_node n a = Val a' ->
  amm_speed a' = if xml_isNode n "speed" then xml_getFloat n
                 else amm_speed a.
Proof.
  unfold outfit_parseSAmmo_node. destruct a. intros H. nodeM_cases H.
Qed.

Lemma amm_node_duration (n : xmlNode) (a a' : OutfitAmmoData) :
  outfit_parseSAmmo_node n a = Val a' ->
  amm_duration a' = if xml_isNode n "duration" then xml_getFloat n
                    else amm_duration a.
Proof.
  unfold outfit_parseSAmmo_node. destruct a. intros H. nodeM_cases H.
Qed.

(** X18.  An ammunition parsed into a fresh record stores its resistance
    as the fraction percentage/100 and its speed and duration as written,
    so that [outfit_range] of the parsed record is 0.8 times the speed times
    the duration of the document. *)
Theorem outfit_parseSAmmo_range (temp t' : Outfit) (parent : xmlNode) :
  o_u temp = U_zero -> outfit_isAmmo temp = true ->
  outfit_parseSAmmo temp parent = Val t' ->
  exists a : OutfitAmmoData,
    o_u t' = U_amm a /\
    amm_resist a
    = PrimFloat.div (xml_fieldFloat "resist" (x_children parent)) 100 /\
    outfit_range t'
    = Val (PrimFloat.mul
             (PrimFloat.mul 0.8
                (xml_fieldFloat "speed" (x_children parent)))
             (xml_fieldFloat "duration" (x_children parent))).
Proof.
  intros Hu Hammo. unfold outfit_parseSAmmo, store. rewrite Hu. simpl.
  destruct (xml_walkM outfit_parseSAmmo_node (x_children parent) zero_amm)
    as [a |] eqn:Hw; simpl; intros H; [| discriminate H].
  injection H as <-.
  pose proof (walkM_field _ amm_resist "resist" _ amm_node_resist _ _ _ Hw)
    as Hres.
  pose proof (walkM_field _ amm_speed "speed" _ amm_node_speed _ _ _ Hw)
    as Hspd.
  pose proof (walkM_field _ amm_duration "duration" _ amm_node_duration
                _ _ _ Hw) as Hdur.
  rewrite <- field_float_last in Hres, Hspd, Hdur.
  exists (ammo_post a). split; [reflexivity |]. split.
  - destruct a. simpl in *. rewrite Hres. reflexivity.
  - assert (Hammo' : outfit_isAmmo (with_u temp (U_amm (ammo_post a))) = true)
      by exact Hammo.
    destruct (ammo_not_bolt_beam _ Hammo') as [Hb Hm].
    unfold outfit_range. rewrite Hb, Hm, Hammo'. simpl.
    destruct a. simpl in *. rewrite Hspd, Hdur. reflexivity.
Qed.

Lemma bem_node_delay (n : xmlNode) (b b' : OutfitBeamData) :
  outfit_parseSBeam_node n b = Val b' -> bem_delay b' = bem_delay b.
Proof.
  unfold outfit_parseSBeam_node. destruct b. intros H.
  repeat match type of H with
         | context [xml_isNode ?n ?s] =>
             destruct (xml_isNode n s) eqn:?; simpl in H
         end;
    repeat match type of H with
           | cbind ?m _ = Val _ =>
               destruct m as [[[? ?] ?] |]; simpl in H
           end;
    try discriminate H; injection H as <-; reflexivity.
Qed.

Lemma bem_walk_delay (cs : list xmlNode) :
  forall b b' : OutfitBeamData,
    xml_walkM outfit_parseSBeam_node cs b = Val b' ->
    bem_delay b' = bem_delay b.
Proof.
  induction cs as [| c cs IH]; intros b b' H; simpl in H.
  - injection H as <-. reflexivity.
  - destruct (outfit_parseSBeam_node c b) as [b1 |] eqn:Hb;
      [| discriminate H].
    simpl in H. rewrite (IH b1 b' H). exact (bem_node_delay c b b1 Hb).
Qed.

(** X19.  The beam parser reads no delay: whatever the section holds, a
    "delay" element included, [outfit_delay] of a beam parsed into a fresh
    record is 0, and its colour is white. *)
Theorem outfit_parseSBeam_delay (temp t' : Outfit) (parent : xmlNode) :
  o_u temp = U_zero -> outfit_isBeam temp = true ->
  outfit_isBolt temp = false ->
  outfit_parseSBeam temp parent = Val t' ->
  outfit_delay t' = Val 0 /\
  exists b : OutfitBeamData, o_u t' = U_bem b /\ bem_colour b = Some cWhite.
Proof.
  intros Hu Hbeam Hbolt. unfold outfit_parseSBeam, store. rewrite Hu. simpl.
  destruct (xml_walkM outfit_parseSBeam_node (x_children parent) zero_bem)
    as [b |] eqn:Hw; simpl; intros H; [| discriminate H].
  injection H as <-.
  pose proof (bem_walk_delay _ _ _ Hw) as Hd. simpl in Hd.
  split.
  - unfold outfit_delay.
    change (outfit_isBolt (with_u temp (U_bem (set_bem_colour (Some cWhite) b))))
      with (outfit_isBolt temp).
    change (outfit_isBeam (with_u temp (U_bem (set_bem_colour (Some cWhite) b))))
      with (outfit_isBeam temp).
    rewrite Hbolt, Hbeam. simpl. destruct b. simpl in *. rewrite Hd.
    reflexivity.
  - eexists. split; [reflexivity |]. destruct b. reflexivity.
Qed.

Lemma blt_node_sound (n : xmlNode) (b b' : OutfitBoltData) :
  outfit_parseSBolt_node n b = Val b' ->
  blt_sound b' = if xml_isNode n "sound" then sound_get (xml_get n)
                 else blt_sound b.
Proof.
  unfold outfit_parseSBolt_node. destruct b. intros H. nodeM_cases H.
Qed.

Lemma blt_node_delay (n : xmlNode) (b b' : OutfitBoltData) :
  outfit_parseSBolt_node n b = Val b' ->
  blt_delay b' = if xml_isNode n "delay"
                 then double_to_uint (xml_getFloat n)
                 else blt_delay b.
Proof.
  unfold outfit_parseSBolt_node. destruct b. intros H. nodeM_cases H.
Qed.

Lemma to_int_small (z : Z) :
  -2147483648 <= z < 2147483648 -> to_int z = z.
Proof.
  intros H. unfold to_int.
  destruct (Z_lt_dec z 0) as [Hneg | Hpos].
  - rewrite <- (Z.mod_add z 1 4294967296) by lia.
    rewrite Z.mod_small by lia.
    destruct (Z.ltb_spec (z + 1 * 4294967296) 2147483648); lia.
  - rewrite Z.mod_small by lia.
    destruct (Z.ltb_spec z 2147483648); lia.
Qed.

(** X20.  A bolt weapon parsed into a fresh record has the sound of its
    last "sound" element and the sound -1 ("unset") when there is none.
    [outfit_delay] of it is the number of the last "delay" element as the
    store converts it, converted again to the [int] that is returned: the
    number itself when it is below 2^31, the wrapped number otherwise, and 0
    when there is no "delay" element. *)
Theorem outfit_parseSBolt_defaults (temp t' : Outfit) (parent : xmlNode) :
  o_u temp = U_zero -> outfit_isBolt temp = true ->
  outfit_parseSBolt temp parent = Val t' ->
  (exists b : OutfitBoltData,
      o_u t' = U_blt b /\
      blt_sound b
      = match xml_lastNode "sound" (x_children parent) with
        | Some n => sound_get (xml_get n)
        | None => -1
        end) /\
  outfit_delay t'
  = Val (to_int match xml_lastNode "delay" (x_children parent) with
                | Some n => double_to_uint (xml_getFloat n)
                | None => 0
                end) /\
  (forall n : xmlNode,
      xml_lastNode "delay" (x_children parent) = Some n ->
      0 <= double_to_uint (xml_getFloat n) < 2147483648 ->
      outfit_delay t' = Val (double_to_uint (xml_getFloat n))) /\
  (xml_lastNode "delay" (x_children parent) = None ->
   outfit_delay t' = Val 0).
Proof.
  intros Hu Hbolt. unfold outfit_parseSBolt, store. rewrite Hu. simpl.
  destruct (xml_walkM outfit_parseSBolt_node _ _) as [b |] eqn:Hw;
    simpl; intros H; [| discriminate H].
  injection H as <-.
  pose proof (walkM_field _ blt_sound "sound" _ blt_node_sound _ _ _ Hw)
    as Hs.
  pose proof (walkM_field _ blt_delay "delay" _ blt_node_delay _ _ _ Hw)
    as Hd.
  simpl in Hs, Hd.
  assert (Hdelay : outfit_delay (with_u temp (U_blt b))
                   = Val (to_int match xml_lastNode "delay"
                                         (x_children parent) with
                                 | Some n => double_to_uint (xml_getFloat n)
                                 | None => 0
                                 end)).
  { unfold outfit_delay.
    change (outfit_isBolt (with_u temp (U_blt b))) with (outfit_isBolt temp).
    rewrite Hbolt. simpl. rewrite Hd. reflexivity. }
  split; [exists b; split; [reflexivity | exact Hs] |].
  split; [exact Hdelay |]. split.
  - intros n Hn Hr. rewrite Hdelay, Hn. rewrite to_int_small by lia.
    reflexivity.
  - intros Hn. rewrite Hdelay, Hn. reflexivity.
Qed.

End ParserUnits.

Lemma outfit_parseSAfterburner_multipliers_witness :
  exists a : OutfitAfterburnerData,
    outfit_parseSAfterburner (outfit_calloc (Some "Burner"))
                             sample_afterburner_specific
    = Val (with_u (outfit_calloc (Some "Burner")) (U_afb a)) /\
    afb_thrust_perc a = 1.5%float /\ afb_speed_perc a = 1%float.
Proof.
  exact (outfit_parseSAfterburner_multipliers
           (outfit_calloc (Some "Burner")) sample_afterburner_specific
           eq_refl).
Defined.

Lemma outfit_parseSMod_regen_witness :
  exists m : OutfitModificationData,
    outfit_parseSMod (outfit_calloc (Some "Shield Booster"))
                     sample_mod_specific
    = Val (with_u (outfit_calloc (Some "Shield Booster")) (U_mod m)) /\
    mod_armour_regen m = 0%float /\ mod_shield_regen m = 2%float /\
    mod_energy_regen m = 0%float /\ mod_shield m = 50%float.
Proof.
  exact (outfit_parseSMod_regen (outfit_calloc (Some "Shield Booster"))
           sample_mod_specific eq_refl).
Defined.

Lemma outfit_parseSAmmo_range_witness :
  exists a : OutfitAmmoData,
    o_u sample_ammo_parsed = U_amm a /\
    amm_resist a = 0.25%float /\
    outfit_range sample_ammo_parsed = Val 1400%float.
Proof.
  exact (outfit_parseSAmmo_range
           (with_type (outfit_calloc (Some "Seeker Missile"))
                      OUTFIT_TYPE_MISSILE_SEEK_AMMO)
           sample_ammo_parsed sample_ammo_specific
           eq_refl eq_refl eq_refl).
Defined.

Lemma outfit_parseSBeam_delay_witness :
  outfit_delay sample_beam_parsed = Val 0 /\
  exists b : OutfitBeamData,
    o_u sample_beam_parsed = U_bem b /\ bem_colour b = Some cWhite.
Proof.
  exact (outfit_parseSBeam_delay
           (with_type (outfit_calloc (Some "Ripper Beam")) OUTFIT_TYPE_BEAM)
           sample_beam_parsed sample_beam_specific
           eq_refl eq_refl eq_refl eq_refl).
Defined.

Lemma outfit_parseSBolt_defaults_witness :
  (exists b : OutfitBoltData,
      o_u sample_bolt_parsed = U_blt b /\ blt_sound b = -1) /\
  outfit_delay sample_bolt_parsed = Val 500 /\
  to_int 3000000000 = -1294967296.
Proof.
  destruct (outfit_parseSBolt_defaults (libs := sample_libs)
              (with_type (outfit_calloc (Some "Rear Gun")) OUTFIT_TYPE_BOLT)
              sample_bolt_parsed sample_bolt_specific
              eq_refl eq_refl eq_refl) as (Hs & Hd & _ & _).
  split; [exact Hs | split; [exact Hd | reflexivity]].
Defined.
